(** * Triangula chassis kinematics: a shallow embedding of
      [src/python/triangula/chassis.py]

    Python floats are read as real numbers (exact arithmetic); [sin],
    [cos] and [pi] are those of the Standard Library's reals.  Python
    operations that can raise ([/] and [%] on a zero divisor, the
    [ValueError] of [OmniWheel.__init__], numpy's [LinAlgError]) live in
    an error monad.  Where the rounding of a single operation decides a
    property, the operation is also run on binary64 floats (module
    [Double]). *)

From Stdlib Require Import Reals Lra Lia ZArith List.
From Stdlib Require Floats.
Import ListNotations.
Open Scope R_scope.

(** ** Exceptions and the error monad *)

Inductive exn : Set :=
| ValueError
| ZeroDivisionError
| LinAlgError
| IndexError.

Inductive result (A : Type) : Type :=
| Ok (a : A)
| Raise (e : exn).

Arguments Ok {A} a.
Arguments Raise {A} e.

Definition bind {A B : Type} (m : result A) (k : A -> result B) : result B :=
  match m with
  | Ok a => k a
  | Raise e => Raise e
  end.

Notation "x <- m ;; k" := (bind m (fun x => k))
  (at level 61, m at next level, right associativity).

Definition succeeds {A : Type} (m : result A) : Prop := exists a, m = Ok a.

(** [list(f(x) for x in xs)] where [f] may raise. *)
Fixpoint traverse {A B : Type} (f : A -> result B) (xs : list A) : result (list B) :=
  match xs with
  | [] => Ok []
  | x :: rest =>
      y <- f x ;;
      ys <- traverse f rest ;;
      Ok (y :: ys)
  end.

(** ** Float operators that raise *)

(** [a / b]: [ZeroDivisionError] on a zero divisor. *)
Definition py_div (a b : R) : result R :=
  if Req_dec_T b 0 then Raise ZeroDivisionError else Ok (a / b).

(** The value of [a % b] for [b <> 0]: it has the sign of the divisor. *)
Definition float_mod (a b : R) : R := a - b * IZR (Zfloor (a / b)).

(** [a % b]: [ZeroDivisionError] on a zero modulus. *)
Definition py_mod (a b : R) : result R :=
  if Req_dec_T b 0 then Raise ZeroDivisionError else Ok (float_mod a b).

(** [min(a, b)] on two floats. *)
Definition py_min (a b : R) : R := if Rlt_dec b a then b else a.

(** [a != b] on two floats. *)
Definition Rneq_dec (a b : R) : {a <> b} + {a = b} :=
  match Req_dec_T a b with
  | left e => right e
  | right n => left n
  end.

(** ** euclid's [Vector2] and [Point2]

    The [euclid] package is imported by the source and is not part of
    it.  [Point2] is a subclass of [Vector2] there; both are a pair of
    floats [x], [y]. *)

Record Vector2 : Set := mkVector2 { x : R; y : R }.

Definition Point2 : Set := Vector2.

Definition vadd (a b : Vector2) : Vector2 := mkVector2 (x a + x b) (y a + y b).
Definition vsub (a b : Vector2) : Vector2 := mkVector2 (x a - x b) (y a - y b).
Definition vscale (a : Vector2) (k : R) : Vector2 := mkVector2 (x a * k) (y a * k).
Definition dot (a b : Vector2) : R := x a * x b + y a * y b.
Definition magnitude_squared (a : Vector2) : R := x a * x a + y a * y a.

(** Modelled from the spec: euclid's [Vector2.cross], the "perpendicular
    (90 degree rotated)" operation of the data model.  euclid returns
    [Vector2(self.y, -self.x)]. *)
Definition cross (a : Vector2) : Vector2 := mkVector2 (y a) (- x a).

(** [vector / k], component-wise, raising on [k = 0]. *)
Definition vdiv (a : Vector2) (k : R) : result Vector2 :=
  qx <- py_div (x a) k ;;
  qy <- py_div (y a) k ;;
  Ok (mkVector2 qx qy).

(** ** Geometric utilities *)

Definition default_origin (origin : option Point2) : Point2 :=
  match origin with
  | Some o => o
  | None => mkVector2 0 0
  end.

Definition rotate_point (point : Point2) (angle : R) (origin : option Point2) : Point2 :=
  let origin := default_origin origin in
  let s := sin angle in
  let c := cos angle in
  mkVector2 (c * (x point - x origin) - s * (y point - y origin) + x origin)
            (s * (x point - x origin) + c * (y point - y origin) + y origin).

Definition rotate_vector (vector : Vector2) (angle : R) (origin : option Point2) : Vector2 :=
  let origin := default_origin origin in
  let s := sin angle in
  let c := cos angle in
  mkVector2 (c * (x vector - x origin) - s * (y vector - y origin) + x origin)
            (s * (x vector - x origin) + c * (y vector - y origin) + y origin).

Definition smallest_difference (a b max_value : R) : result R :=
  mod_a <- py_mod a max_value ;;
  mod_b <- py_mod b max_value ;;
  if Rle_dec (Rabs (mod_a - mod_b)) (max_value / 2) then
    Ok (mod_b - mod_a)
  else if Rge_dec mod_a mod_b then
    Ok (max_value - (mod_a + mod_b))
  else
    Ok (mod_b + mod_a - max_value).

(** ** Value types *)

Module WheelSpeeds.
Record t : Set := mk { speeds : list R; scaling : R }.
End WheelSpeeds.

Module Motion.
Record t : Set := mk { translation : Vector2; rotation : R }.
End Motion.

Module Pose.
Record t : Set := mk { position : Point2; orientation : R }.

(** [Pose.__init__]: the orientation is stored modulo [2 * pi]. *)
Definition init (position : Point2) (orientation : R) : result t :=
  o <- py_mod orientation (2 * PI) ;;
  Ok (mk position o).
End Pose.

(** [Pose.calculate_pose_change]. *)
Definition calculate_pose_change (self : Pose.t) (motion : Motion.t) (time : R)
  : result Pose.t :=
  if Rneq_dec (Motion.rotation motion) 0 then
    let final_orientation := Pose.orientation self + Motion.rotation motion * time in
    centre_of_rotation_as_vector <-
      vdiv (cross (rotate_vector (Motion.translation motion) (- Pose.orientation self) None))
           (Motion.rotation motion) ;;
    let centre_of_rotation : Point2 :=
      mkVector2 (x centre_of_rotation_as_vector) (y centre_of_rotation_as_vector) in
    let final_position :=
      rotate_point (Pose.position self) (Motion.rotation motion) (Some centre_of_rotation) in
    Pose.init final_position final_orientation
  else
    Pose.init
      (vadd (Pose.position self)
            (rotate_vector (Motion.translation motion) (- Pose.orientation self) None))
      (Pose.orientation self).

(** ** Omni-wheels *)

Module OmniWheel.
Record t : Set := mk {
  position : Point2;
  max_speed : option R;
  vector : Vector2;
  vector_magnitude_squared : R;
  co_x : R;
  co_y : R;
  co_theta : R
}.

(** The signature reads [max_speed=0]: this is the value of the
    attribute when the caller passes no [max_speed]. *)
Definition default_max_speed : option R := Some 0.

(** The drive vector chosen by the [if]/[elif]/[else] of [__init__]. *)
Definition drive_vector (angle radius : option R) (vector : option Vector2)
  : result Vector2 :=
  match angle, radius, vector with
  | None, None, Some v => Ok v
  | Some a, Some r, None =>
      let circumference := 2 * PI * r in
      Ok (mkVector2 (sin a * circumference) (cos a * circumference))
  | _, _, _ => Raise ValueError
  end.

(** [OmniWheel.__init__(position, max_speed, angle, radius, vector)]. *)
Definition init (position : Point2) (max_speed : option R)
    (angle radius : option R) (vector : option Vector2) : result t :=
  v <- drive_vector angle radius vector ;;
  let vector_magnitude_squared := magnitude_squared v in
  co_x <- py_div (x v) vector_magnitude_squared ;;
  co_y <- py_div (y v) vector_magnitude_squared ;;
  co_theta <- py_div (x v * y position - y v * x position) vector_magnitude_squared ;;
  Ok (mk position max_speed v vector_magnitude_squared co_x co_y co_theta).

(** [OmniWheel.speed]. *)
Definition speed (self : t) (velocity : Vector2) : result R :=
  py_div (dot velocity (vector self)) (vector_magnitude_squared self).
End OmniWheel.

(** A wheel object is one that some call of the constructor returned. *)
Definition constructed (w : OmniWheel.t) : Prop :=
  exists position max_speed angle radius vector,
    OmniWheel.init position max_speed angle radius vector = Ok w.

(** ** numpy's linear solve *)

Definition det3 (a11 a12 a13 a21 a22 a23 a31 a32 a33 : R) : R :=
  a11 * (a22 * a33 - a23 * a32)
  - a12 * (a21 * a33 - a23 * a31)
  + a13 * (a21 * a32 - a22 * a31).

(** The determinant of a matrix given by its rows; [0] when the rows do
    not form a 3x3 matrix. *)
Definition det (a : list (list R)) : R :=
  match a with
  | [[a11; a12; a13]; [a21; a22; a23]; [a31; a32; a33]] =>
      det3 a11 a12 a13 a21 a22 a23 a31 a32 a33
  | _ => 0
  end.

(** Modelled from the spec: [numpy.linalg.solve], imported by the source
    and not part of it.  The forward kinematics "requires M to be square
    and non-singular - i.e., exactly 3 wheels"; on such a matrix the
    solve returns the unique solution (written here by Cramer's rule),
    and a singular or non-square matrix is an error. *)
Definition np_solve (a : list (list R)) (b : list R) : result (list R) :=
  match a with
  | [[a11; a12; a13]; [a21; a22; a23]; [a31; a32; a33]] =>
      match b with
      | [b1; b2; b3] =>
          let d := det3 a11 a12 a13 a21 a22 a23 a31 a32 a33 in
          if Req_dec_T d 0 then Raise LinAlgError
          else Ok [ det3 b1 a12 a13 b2 a22 a23 b3 a32 a33 / d;
                    det3 a11 b1 a13 a21 b2 a23 a31 b3 a33 / d;
                    det3 a11 a12 b1 a21 a22 b2 a31 a32 b3 / d ]
      | _ => Raise ValueError
      end
  | _ => Raise LinAlgError
  end.

(** [l[i]] on a sequence. *)
Definition index (l : list R) (i : nat) : result R :=
  match nth_error l i with
  | Some v => Ok v
  | None => Raise IndexError
  end.

(** ** The chassis *)

Module HoloChassis.
Record t : Set := mk {
  wheels : list OmniWheel.t;
  matrix_coefficients : list (list R)
}.

(** [HoloChassis.__init__]. *)
Definition init (wheels : list OmniWheel.t) : t :=
  mk wheels
     (map (fun wheel =>
             [OmniWheel.co_x wheel; OmniWheel.co_y wheel; OmniWheel.co_theta wheel])
          wheels).
End HoloChassis.

(** [HoloChassis.calculate_motion]. *)
Definition calculate_motion (self : HoloChassis.t) (speeds : list R) : result Motion.t :=
  motion_array <- np_solve (HoloChassis.matrix_coefficients self) speeds ;;
  m0 <- index motion_array 0 ;;
  m1 <- index motion_array 1 ;;
  m2 <- index motion_array 2 ;;
  Ok (Motion.mk (mkVector2 m0 m1) m2).

(** The local function [velocity_at] of [get_wheel_speeds]; the enclosing
    [translation], [rotation] and [origin] are passed explicitly. *)
Definition velocity_at (translation : Vector2) (rotation : R) (origin point : Point2)
  : Vector2 :=
  let d := vsub point origin in
  vadd (vscale (cross d) rotation) translation.

(** The list [wheel_speeds] of [get_wheel_speeds]: the speed of every
    wheel before any scaling. *)
Definition wheel_speeds (self : HoloChassis.t) (translation : Vector2) (rotation : R)
    (origin : Point2) : result (list R) :=
  traverse (fun wheel =>
              OmniWheel.speed wheel
                (velocity_at translation rotation origin (OmniWheel.position wheel)))
           (HoloChassis.wheels self).

(** The [for speed, wheel in zip(wheel_speeds, self.wheels)] loop, from a
    current value of [scale]. *)
Fixpoint scale_loop (scale : R) (pairs : list (R * OmniWheel.t)) : result R :=
  match pairs with
  | [] => Ok scale
  | (speed, wheel) :: rest =>
      match OmniWheel.max_speed wheel with
      | Some max_speed =>
          if Rgt_dec (Rabs speed) max_speed then
            wheel_scale <- py_div max_speed (Rabs speed) ;;
            scale_loop (py_min scale wheel_scale) rest
          else scale_loop scale rest
      | None => scale_loop scale rest
      end
  end.

(** [HoloChassis.get_wheel_speeds]; [origin = None] stands for a call
    that leaves the default [Point2(x=0, y=0)]. *)
Definition get_wheel_speeds (self : HoloChassis.t) (translation : Vector2) (rotation : R)
    (origin : option Point2) : result WheelSpeeds.t :=
  let origin := default_origin origin in
  unscaled <- wheel_speeds self translation rotation origin ;;
  scale <- scale_loop 1 (combine unscaled (HoloChassis.wheels self)) ;;
  Ok (WheelSpeeds.mk (map (fun speed => speed * scale) unscaled) scale).

(** ** Statements of the specification

    The properties the specification states, as predicates over the
    functions above, so that each can be settled on the code. *)

(** The centre of the arc named by the specification: the current
    position displaced by [perpendicular(rotateVector(translation,
    -orientation)) / rotation]. *)
Definition arc_centre (p : Pose.t) (m : Motion.t) : result Point2 :=
  c <- vdiv (cross (rotate_vector (Motion.translation m) (- Pose.orientation p) None))
            (Motion.rotation m) ;;
  Ok (vadd (Pose.position p) c).

(** The arc update as the specification words it: the orientation is the
    plain sum, the position is the current one turned by
    [rotation * elapsed] about [arc_centre]. *)
Definition arc_advance_spec (p : Pose.t) (m : Motion.t) (t : R) : Prop :=
  exists q centre,
    calculate_pose_change p m t = Ok q /\
    arc_centre p m = Ok centre /\
    Pose.orientation q = Pose.orientation p + Motion.rotation m * t /\
    Pose.position q = rotate_point (Pose.position p) (Motion.rotation m * t) (Some centre).

(** The returned scaling lies in the half-open interval [(0, 1]]. *)
Definition scaling_in_unit_interval (ch : HoloChassis.t) (translation : Vector2)
    (rotation : R) (origin : option Point2) : Prop :=
  exists ws,
    get_wheel_speeds ch translation rotation origin = Ok ws /\
    0 < WheelSpeeds.scaling ws <= 1.

(** Wheel [i] binds: its unscaled speed over its limit is [1 / scaling]
    (both quotients as Python computes them), and its returned speed sits
    at the limit. *)
Definition binding_wheel (ch : HoloChassis.t) (unscaled : list R) (ws : WheelSpeeds.t)
    (i : nat) : Prop :=
  exists wheel speed limit ratio returned,
    nth_error (HoloChassis.wheels ch) i = Some wheel /\
    nth_error unscaled i = Some speed /\
    OmniWheel.max_speed wheel = Some limit /\
    py_div (Rabs speed) limit = Ok ratio /\
    py_div 1 (WheelSpeeds.scaling ws) = Ok ratio /\
    nth_error (WheelSpeeds.speeds ws) i = Some returned /\
    Rabs returned = limit.

(** No returned speed exceeds the limit of its wheel. *)
Definition within_limits (ch : HoloChassis.t) (ws : WheelSpeeds.t) : Prop :=
  forall j wheel limit returned,
    nth_error (HoloChassis.wheels ch) j = Some wheel ->
    OmniWheel.max_speed wheel = Some limit ->
    nth_error (WheelSpeeds.speeds ws) j = Some returned ->
    Rabs returned <= limit.

(** The scaling invariant of the specification for one call. *)
Definition scaling_invariant (ch : HoloChassis.t) (translation : Vector2)
    (rotation : R) (origin : option Point2) : Prop :=
  forall unscaled ws,
    wheel_speeds ch translation rotation (default_origin origin) = Ok unscaled ->
    get_wheel_speeds ch translation rotation origin = Ok ws ->
    WheelSpeeds.scaling ws < 1 ->
    (exists i, binding_wheel ch unscaled ws i) /\ within_limits ch ws.

(** Every limit that is set is a positive number of revolutions per second. *)
Definition positive_limit (w : OmniWheel.t) : Prop :=
  match OmniWheel.max_speed w with
  | Some limit => 0 < limit
  | None => True
  end.

(** A wheel whose limit is [0] and whose requested speed is not [0]. *)
Definition stalled (p : R * OmniWheel.t) : Prop :=
  OmniWheel.max_speed (snd p) = Some 0 /\ fst p <> 0.

(** Exactly one of the two wheel specifications is supplied: a vector
    alone, or an angle and a radius with no vector. *)
Definition exactly_one_specification (angle radius : option R) (vector : option Vector2)
  : Prop :=
  (angle = None /\ radius = None /\ vector <> None) \/
  (angle <> None /\ radius <> None /\ vector = None).

(** Construction succeeds exactly when one specification is supplied. *)
Definition construction_iff_one_specification (position : Point2) (max_speed : option R)
    (angle radius : option R) (vector : option Vector2) : Prop :=
  succeeds (OmniWheel.init position max_speed angle radius vector) <->
  exactly_one_specification angle radius vector.

(** ** The chassis of the source's [test()], and other concrete inputs *)

(** [OmniWheel(position=Point2(1, 0), angle=0, radius=60)]: no
    [max_speed] is passed. *)
Definition test_wheel_a : result OmniWheel.t :=
  OmniWheel.init (mkVector2 1 0) OmniWheel.default_max_speed (Some 0) (Some 60) None.

(** [OmniWheel(position=Point2(-1, 0), angle=0, radius=60)]. *)
Definition test_wheel_b : result OmniWheel.t :=
  OmniWheel.init (mkVector2 (-1) 0) OmniWheel.default_max_speed (Some 0) (Some 60) None.

(** A wheel at the origin driving along +Y one millimetre per
    revolution, with the given [max_speed]. *)
Definition unit_wheel (max_speed : option R) : result OmniWheel.t :=
  OmniWheel.init (mkVector2 0 0) max_speed None None (Some (mkVector2 0 1)).

(** ** The remaining functions of the module *)

(** [Pose.pose_to_pose_vector]. *)
Definition pose_to_pose_vector (self to_pose : Pose.t) : Vector2 :=
  rotate_vector
    (mkVector2 (x (Pose.position to_pose) - x (Pose.position self))
               (y (Pose.position to_pose) - y (Pose.position self)))
    (- Pose.orientation self) None.

(** [math.radians]. *)
Definition radians (degrees : R) : R := degrees * (PI / 180).

(** [get_regular_triangular_chassis]; [max_rotations_per_second] is
    handed to the wheels as it comes, a float or [None]. *)
Definition get_regular_triangular_chassis (wheel_distance wheel_radius : R)
    (max_rotations_per_second : option R) : result HoloChassis.t :=
  let point : Point2 := mkVector2 0 (cos (radians 30) * wheel_distance / 2) in
  let vector := mkVector2 ((-2) * PI * wheel_radius) 0 in
  wheel_a <- OmniWheel.init point max_rotations_per_second None None (Some vector) ;;
  wheel_b <- OmniWheel.init (rotate_point point ((- PI) * 2 / 3) None)
               max_rotations_per_second None None
               (Some (rotate_vector vector ((- PI) * 2 / 3) None)) ;;
  wheel_c <- OmniWheel.init (rotate_point point ((- PI) * 4 / 3) None)
               max_rotations_per_second None None
               (Some (rotate_vector vector ((- PI) * 4 / 3) None)) ;;
  Ok (HoloChassis.init [wheel_a; wheel_b; wheel_c]).

(** [HoloChassis.get_max_translation_speed]. *)
Definition get_max_translation_speed (self : HoloChassis.t) : result R :=
  let unrealistic_speed := 10000 in
  ws <- get_wheel_speeds self (mkVector2 0 unrealistic_speed) 0 None ;;
  Ok (unrealistic_speed * WheelSpeeds.scaling ws).

(** [HoloChassis.get_max_rotation_speed]. *)
Definition get_max_rotation_speed (self : HoloChassis.t) : result R :=
  let unrealistic_speed := 2 * PI * 100 in
  ws <- get_wheel_speeds self (mkVector2 0 0) unrealistic_speed None ;;
  Ok (unrealistic_speed * WheelSpeeds.scaling ws).

(** Every limit that is set is zero or more. *)
Definition nonnegative_limit (w : OmniWheel.t) : Prop :=
  match OmniWheel.max_speed w with
  | Some limit => 0 <= limit
  | None => True
  end.

(** The limit is set and negative. *)
Definition negative_limit (w : OmniWheel.t) : Prop :=
  match OmniWheel.max_speed w with
  | Some limit => limit < 0
  | None => False
  end.

(** The requested speed of the wheel is within its limit, if it has one. *)
Definition feasible (p : R * OmniWheel.t) : Prop :=
  match OmniWheel.max_speed (snd p) with
  | Some limit => Rabs (fst p) <= limit
  | None => True
  end.

(** The wheel object [OmniWheel.__init__] leaves behind for a drive
    vector [v]: the attributes it sets, in the order it sets them. *)
Definition built_wheel (position : Point2) (max_speed : option R) (v : Vector2)
  : OmniWheel.t :=
  OmniWheel.mk position max_speed v (magnitude_squared v)
    (x v / magnitude_squared v)
    (y v / magnitude_squared v)
    ((x v * y position - y v * x position) / magnitude_squared v).

(** The three wheels of the regular triangular chassis in closed form,
    for [h] the distance of each contact point from the centre and [c]
    the circumference of a wheel. *)
Definition triangle_wheels (h c : R) (max_speed : option R) : list OmniWheel.t :=
  [ built_wheel (mkVector2 0 h) max_speed (mkVector2 (- c) 0);
    built_wheel (mkVector2 (sqrt 3 / 2 * h) (- h / 2)) max_speed
                (mkVector2 (c / 2) (sqrt 3 / 2 * c));
    built_wheel (mkVector2 (- (sqrt 3 / 2 * h)) (- h / 2)) max_speed
                (mkVector2 (c / 2) (- (sqrt 3 / 2 * c))) ].

(** The scaling invariant in the form the loop computes it: some wheel
    whose speed exceeds its limit has [maxSpeed / |speed|] equal to the
    returned scaling (the quotient as Python computes it). *)
Definition binding_quotient (ch : HoloChassis.t) (unscaled : list R) (ws : WheelSpeeds.t)
    (i : nat) : Prop :=
  exists wheel speed limit,
    nth_error (HoloChassis.wheels ch) i = Some wheel /\
    nth_error unscaled i = Some speed /\
    OmniWheel.max_speed wheel = Some limit /\
    limit < Rabs speed /\
    py_div limit (Rabs speed) = Ok (WheelSpeeds.scaling ws).

(** The returned scaling is no larger than [maxSpeed / |speed|] for any
    wheel whose speed exceeds its limit. *)
Definition tightest_quotient (ch : HoloChassis.t) (unscaled : list R) (ws : WheelSpeeds.t)
  : Prop :=
  forall j wheel speed limit,
    nth_error (HoloChassis.wheels ch) j = Some wheel ->
    nth_error unscaled j = Some speed ->
    OmniWheel.max_speed wheel = Some limit ->
    limit < Rabs speed ->
    exists q, py_div limit (Rabs speed) = Ok q /\ WheelSpeeds.scaling ws <= q.

(** A wheel whose speed was within its limit before scaling is returned
    a speed within its limit. *)
Definition unthrottled_within_limits (ch : HoloChassis.t) (unscaled : list R)
    (ws : WheelSpeeds.t) : Prop :=
  forall j wheel speed limit returned,
    nth_error (HoloChassis.wheels ch) j = Some wheel ->
    nth_error unscaled j = Some speed ->
    OmniWheel.max_speed wheel = Some limit ->
    Rabs speed <= limit ->
    nth_error (WheelSpeeds.speeds ws) j = Some returned ->
    Rabs returned <= limit.

(** The scaling invariant for one call, by quotients. *)
Definition scaling_invariant_by_quotient (ch : HoloChassis.t) (translation : Vector2)
    (rotation : R) (origin : option Point2) : Prop :=
  forall unscaled ws,
    wheel_speeds ch translation rotation (default_origin origin) = Ok unscaled ->
    get_wheel_speeds ch translation rotation origin = Ok ws ->
    WheelSpeeds.scaling ws < 1 ->
    (exists i, binding_quotient ch unscaled ws i) /\
    tightest_quotient ch unscaled ws /\
    unthrottled_within_limits ch unscaled ws.

(** A zero motion over the time [t] returns the pose [p] itself. *)
Definition zero_motion_identity (p : Pose.t) (t : R) : Prop :=
  calculate_pose_change p (Motion.mk (mkVector2 0 0) 0) t = Ok p.

(** [s] is the scaling the loop reaches from 1 on these wheels and
    speeds: it is in [(0, 1]], it is 1 or the quotient [maxSpeed /
    |speed|] of a wheel whose speed exceeds its limit, and it is no
    larger than that quotient for any such wheel. *)
Definition tightest_scaling (wheels : list OmniWheel.t) (unscaled : list R) (s : R)
  : Prop :=
  0 < s <= 1 /\
  (s = 1 \/
   exists i wheel speed limit,
     nth_error wheels i = Some wheel /\ nth_error unscaled i = Some speed /\
     OmniWheel.max_speed wheel = Some limit /\ limit < Rabs speed /\
     s = limit / Rabs speed) /\
  (forall j wheel speed limit,
     nth_error wheels j = Some wheel -> nth_error unscaled j = Some speed ->
     OmniWheel.max_speed wheel = Some limit -> limit < Rabs speed ->
     s <= limit / Rabs speed).

(** ** The operators on IEEE 754 doubles

    A Python float is a binary64 number.  Where the rounding of one
    operation decides a property, the operation is run on Rocq's
    primitive binary64 floats: [+ - * /] round to nearest even as
    Python's do, and [%] is CPython's [float_rem] over an exact [fmod].
    [sin] and [cos] have no binary64 counterpart here, so only code that
    does not call them is embedded. *)

Module Double.
Import PrimFloat FloatOps SpecFloat.
#[local] Open Scope float_scope.
#[local] Set Warnings "-inexact-float".

(** [math.pi], the double nearest to pi ([0x1.921fb54442d18p+1]). *)
Definition pi : float := 3.141592653589793.

(** C's [fmod]: the exact remainder of [x / y] truncated towards zero,
    with the sign of [x]; it is always a double. *)
Definition fmod (a b : float) : float :=
  match Prim2SF a, Prim2SF b with
  | S754_nan, _ | _, S754_nan => nan
  | S754_infinity _, _ => nan
  | _, S754_zero _ => nan
  | S754_zero _, _ => a
  | S754_finite _ _ _, S754_infinity _ => a
  | S754_finite sa ma ea, S754_finite _ mb eb =>
      let e := Z.min ea eb in
      let na := (Z.pos ma * 2 ^ (ea - e))%Z in
      let nb := (Z.pos mb * 2 ^ (eb - e))%Z in
      match (na mod nb)%Z with
      | Z.pos r => SF2Prim (S754_finite sa r e)
      | _ => if sa then neg_zero else zero
      end
  end.

(** [a % b] on floats: [ZeroDivisionError] on a zero modulus; otherwise
    [fmod], moved by one modulus when its sign differs from the
    modulus's, and a zero remainder takes the sign of the modulus. *)
Definition py_mod (a b : float) : result float :=
  if b =? 0 then Raise ZeroDivisionError
  else
    let m := fmod a b in
    if m =? 0 then Ok (if get_sign b then neg_zero else zero)
    else if Bool.eqb (b <? 0) (m <? 0) then Ok m
    else Ok (m + b).

(** [a / b] on floats. *)
Definition py_div (a b : float) : result float :=
  if b =? 0 then Raise ZeroDivisionError else Ok (a / b).

(** [min(a, b)] on two floats. *)
Definition py_min (a b : float) : float := if b <? a then b else a.

(** The attribute [Pose.__init__] stores: [orientation % (2 * pi)]. *)
Definition normalise (orientation : float) : result float :=
  py_mod orientation (2 * pi).

(** The orientation the arc branch of [calculate_pose_change] hands to
    the constructor, normalised: [(orientation + rotation * time) % (2 *
    pi)]. *)
Definition final_orientation (orientation rotation time : float) : result float :=
  normalise (orientation + rotation * time).

Record Vector2 : Set := mkVector2 { x : float; y : float }.

Definition vadd (a b : Vector2) : Vector2 := mkVector2 (x a + x b) (y a + y b).
Definition vsub (a b : Vector2) : Vector2 := mkVector2 (x a - x b) (y a - y b).
Definition vscale (a : Vector2) (k : float) : Vector2 := mkVector2 (x a * k) (y a * k).
Definition dot (a b : Vector2) : float := x a * x b + y a * y b.
Definition magnitude_squared (a : Vector2) : float := x a * x a + y a * y a.
Definition cross (a : Vector2) : Vector2 := mkVector2 (y a) (- x a).

Record OmniWheel : Set := mkOmniWheel {
  position : Vector2;
  max_speed : option float;
  vector : Vector2;
  vector_magnitude_squared : float;
  co_x : float;
  co_y : float;
  co_theta : float
}.

(** [OmniWheel.__init__] called with a [vector] and neither [angle] nor
    [radius] (the other branch calls [sin] and [cos]). *)
Definition init_with_vector (position : Vector2) (max_speed : option float)
    (v : Vector2) : result OmniWheel :=
  let vector_magnitude_squared := magnitude_squared v in
  co_x <- py_div (x v) vector_magnitude_squared ;;
  co_y <- py_div (y v) vector_magnitude_squared ;;
  co_theta <- py_div (x v * y position - y v * x position) vector_magnitude_squared ;;
  Ok (mkOmniWheel position max_speed v vector_magnitude_squared co_x co_y co_theta).

(** [OmniWheel.speed]. *)
Definition speed (self : OmniWheel) (velocity : Vector2) : result float :=
  py_div (dot velocity (vector self)) (vector_magnitude_squared self).

Definition velocity_at (translation : Vector2) (rotation : float) (origin point : Vector2)
  : Vector2 :=
  let d := vsub point origin in
  vadd (vscale (cross d) rotation) translation.

Fixpoint scale_loop (scale : float) (pairs : list (float * OmniWheel)) : result float :=
  match pairs with
  | [] => Ok scale
  | (speed, wheel) :: rest =>
      match max_speed wheel with
      | Some max_speed =>
          if max_speed <? abs speed then
            wheel_scale <- py_div max_speed (abs speed) ;;
            scale_loop (py_min scale wheel_scale) rest
          else scale_loop scale rest
      | None => scale_loop scale rest
      end
  end.

Record WheelSpeeds : Set := mkWheelSpeeds { speeds : list float; scaling : float }.

(** [HoloChassis.get_wheel_speeds] on a list of wheels. *)
Definition get_wheel_speeds (wheels : list OmniWheel) (translation : Vector2)
    (rotation : float) (origin : Vector2) : result WheelSpeeds :=
  unscaled <- traverse (fun wheel => speed wheel
                          (velocity_at translation rotation origin (position wheel)))
                       wheels ;;
  scale <- scale_loop 1 (combine unscaled wheels) ;;
  Ok (mkWheelSpeeds (map (fun speed => speed * scale) unscaled) scale).

(** [2 * pi] as the source computes it. *)
Definition two_pi : float := 2 * pi.

(** The runs used below. *)

(** [Pose(position, -1e-20).orientation]. *)
Definition orientation_of_minus_1e_20 : result float := normalise (-1e-20).

(** The orientation after [calculate_pose_change] from orientation 0.3
    with rotation -0.1 rad/s over 3.0 s. *)
Definition orientation_after_arc : result float := final_orientation 0.3 (-0.1) 3.

(** One wheel at the origin driving along +Y, one millimetre per
    revolution, limited to 1.3 rev/s. *)
Definition limited_wheel : result OmniWheel :=
  init_with_vector (mkVector2 0 0) (Some 1.3) (mkVector2 0 1).

(** That wheel asked for 10000 mm/s along +Y. *)
Definition throttled_run : result WheelSpeeds :=
  w <- limited_wheel ;;
  get_wheel_speeds [w] (mkVector2 0 10000) 0 (mkVector2 0 0).

(** What that run returns: the speed [1.3000000000000003] and the
    scaling [0.00013000000000000002]. *)
Definition throttled_result : WheelSpeeds :=
  mkWheelSpeeds [1.3000000000000003] 0.00013000000000000002.

(** The returned speed exceeds the limit of 1.3. *)
Definition exceeds_limit (ws : WheelSpeeds) : bool :=
  match speeds ws with
  | [returned] => 1.3 <? abs returned
  | _ => false
  end.
End Double.

(** * Properties *)

(** ** The float operators *)

Lemma py_div_ok (a b : R) : b <> 0 -> py_div a b = Ok (a / b).
Proof.
  intros Hb. unfold py_div. destruct (Req_dec_T b 0) as [E | _]; [contradiction | reflexivity].
Qed.

Lemma py_div_zero (a : R) : py_div a 0 = Raise ZeroDivisionError.
Proof.
  unfold py_div. destruct (Req_dec_T 0 0) as [_ | N]; [reflexivity | now elim N].
Qed.

Lemma py_div_inv (a b q : R) : py_div a b = Ok q -> b <> 0 /\ q = a / b.
Proof.
  unfold py_div. destruct (Req_dec_T b 0) as [E | N]; [discriminate |].
  intros H. injection H as <-. now split.
Qed.

Lemma py_mod_ok (a b : R) : b <> 0 -> py_mod a b = Ok (float_mod a b).
Proof.
  intros Hb. unfold py_mod. destruct (Req_dec_T b 0) as [E | _]; [contradiction | reflexivity].
Qed.

Lemma float_mod_bounds (a m : R) : 0 < m -> 0 <= float_mod a m < m.
Proof.
  intros Hm. unfold float_mod.
  destruct (Zfloor_bound (a / m)) as [Hlo Hhi].
  assert (Ha : a = m * (a / m)) by (field; lra).
  set (k := IZR (Zfloor (a / m))) in *.
  split.
  - assert (m * k <= m * (a / m)) by (apply Rmult_le_compat_l; lra). lra.
  - assert (m * (a / m) < m * (k + 1)) by (apply Rmult_lt_compat_l; lra). lra.
Qed.

Lemma float_mod_small (a m : R) : 0 <= a < m -> float_mod a m = a.
Proof.
  intros [Hlo Hhi]. unfold float_mod.
  assert (Hm : 0 < m) by lra.
  replace (Zfloor (a / m)) with 0%Z; [lra |].
  symmetry. apply Zfloor_eq. simpl. split.
  - apply Rmult_le_pos; [lra |]. left. now apply Rinv_0_lt_compat.
  - apply Rmult_lt_reg_r with m; [lra |]. field_simplify; lra.
Qed.

(** The stored value of [a % m] is a fixed point of [% m]. *)
Lemma float_mod_idempotent (a m : R) :
  0 < m -> float_mod (float_mod a m) m = float_mod a m.
Proof.
  intros Hm. apply float_mod_small. now apply float_mod_bounds.
Qed.

(** [a % m] differs from [a] by a whole number of moduli. *)
Lemma float_mod_congruent (a m : R) : exists k : Z, float_mod a m = a - IZR k * m.
Proof.
  exists (Zfloor (a / m)). unfold float_mod. ring.
Qed.

Lemma two_PI_pos : 0 < 2 * PI.
Proof. generalize PI_RGT_0. lra. Qed.

Lemma PI_gt_3 : 3 < PI.
Proof. generalize PI2_3_2. lra. Qed.

(** ** Runs on doubles *)

(** On doubles the constructor can store the modulus itself: [-1e-20 %
    (2 * pi)] is [2 * pi], because [-1e-20 + 2 * pi] rounds to [2 * pi];
    and [2 * pi % (2 * pi)] is [0.0]. *)
Lemma double_constructor_stores_the_modulus :
  Double.orientation_of_minus_1e_20 = Ok Double.two_pi /\
  Double.normalise Double.two_pi = Ok PrimFloat.zero.
Proof.
  split; vm_compute; reflexivity.
Qed.

(** On doubles [0.3 + (-0.1) * 3.0] is a tiny negative number, and the
    orientation stored after that arc is [2 * pi] itself. *)
Lemma double_arc_orientation_reaches_the_modulus :
  Double.orientation_after_arc = Ok Double.two_pi.
Proof.
  vm_compute. reflexivity.
Qed.

(** On doubles a throttled wheel can be returned a speed above its
    limit: with the limit 1.3 and a computed speed of 10000 the scaling
    is [1.3 / 10000], and [10000 * (1.3 / 10000)] rounds to
    [1.3000000000000003]. *)
Lemma double_throttled_speed_exceeds_limit :
  Double.throttled_run = Ok Double.throttled_result /\
  Double.exceeds_limit Double.throttled_result = true.
Proof.
  split; vm_compute; reflexivity.
Qed.

Lemma float_mod_self (m : R) : m <> 0 -> float_mod m m = 0.
Proof.
  intros Hm. unfold float_mod.
  replace (m / m) with (IZR 1) by (field; exact Hm).
  rewrite ZfloorZ. ring.
Qed.

(** ** [smallest_difference] *)

Lemma smallest_difference_total (a b m : R) :
  m <> 0 -> succeeds (smallest_difference a b m).
Proof.
  intros Hm. unfold succeeds, smallest_difference.
  rewrite !py_mod_ok by assumption. simpl.
  destruct (Rle_dec _ _); [eauto |]. destruct (Rge_dec _ _); eauto.
Qed.


Lemma smallest_difference_example :
  smallest_difference 1 (5 / 2) (13 / 5) = Ok (9 / 10).
Proof.
  unfold smallest_difference.
  rewrite !py_mod_ok by lra.
  rewrite !float_mod_small by lra. simpl.
  destruct (Rle_dec (Rabs (1 - 5 / 2)) (13 / 5 / 2)) as [Hle | _].
  - rewrite Rabs_left in Hle by lra. lra.
  - destruct (Rge_dec 1 (5 / 2)) as [Hge | _]; [lra |].
    f_equal. lra.
Qed.

(** C2 (the code departs from the claim): at [a = 1.0], [b = 2.5],
    [m = 2.6] the code returns [d = 0.9], and [(a + d) % m] is [1.9]
    while [b % m] is [2.5]; the congruence the docstring promises fails
    (only the bound [|d| <= m/2] holds, see [smallest_difference_bound]). *)
Theorem smallest_difference_breaks_congruence :
  exists d lhs rhs,
    smallest_difference 1 (5 / 2) (13 / 5) = Ok d /\
    py_mod (1 + d) (13 / 5) = Ok lhs /\
    py_mod (5 / 2) (13 / 5) = Ok rhs /\
    lhs <> rhs.
Proof.
  exists (9 / 10), (19 / 10), (5 / 2).
  split; [exact smallest_difference_example |].
  rewrite !py_mod_ok by lra.
  rewrite (float_mod_small (5 / 2)) by lra.
  rewrite (float_mod_small (1 + 9 / 10)) by lra.
  repeat split; try (f_equal; lra).
Qed.

(** C9 (the code departs from the claim): [smallest_difference(1.0, 2.5,
    2.6)] takes the last branch, [mod_b + mod_a - max_value], and returns
    [0.9], not the [-1.1] of the docstring. *)
Theorem smallest_difference_example_is_not_wraparound :
  smallest_difference 1 (5 / 2) (13 / 5) = Ok (9 / 10) /\
  smallest_difference 1 (5 / 2) (13 / 5) <> Ok (- (11 / 10)).
Proof.
  split; [exact smallest_difference_example |].
  rewrite smallest_difference_example. intros H. injection H as H. lra.
Qed.

(** ** Poses *)

Lemma Pose_init_ok (position : Point2) (orientation : R) :
  Pose.init position orientation =
  Ok (Pose.mk position (float_mod orientation (2 * PI))).
Proof.
  unfold Pose.init. rewrite py_mod_ok by (generalize two_PI_pos; lra). reflexivity.
Qed.

Lemma vdiv_ok (a : Vector2) (k : R) :
  k <> 0 -> vdiv a k = Ok (mkVector2 (x a / k) (y a / k)).
Proof.
  intros Hk. unfold vdiv. rewrite !py_div_ok by assumption. reflexivity.
Qed.

Lemma rotate_zero_vector (angle : R) :
  rotate_vector (mkVector2 0 0) angle None = mkVector2 0 0.
Proof.
  unfold rotate_vector. simpl. f_equal; ring.
Qed.

Lemma vadd_zero (a : Vector2) : vadd a (mkVector2 0 0) = a.
Proof.
  destruct a as [ax ay]. unfold vadd. simpl. f_equal; ring.
Qed.

(** The two branches of [calculate_pose_change], as equations. *)
Lemma calculate_pose_change_straight (p : Pose.t) (m : Motion.t) (t : R) :
  Motion.rotation m = 0 ->
  calculate_pose_change p m t =
  Ok (Pose.mk
        (vadd (Pose.position p)
              (rotate_vector (Motion.translation m) (- Pose.orientation p) None))
        (float_mod (Pose.orientation p) (2 * PI))).
Proof.
  intros Hr. unfold calculate_pose_change.
  destruct (Rneq_dec (Motion.rotation m) 0) as [N | _]; [contradiction |].
  apply Pose_init_ok.
Qed.

Lemma calculate_pose_change_arc (p : Pose.t) (m : Motion.t) (t : R) :
  Motion.rotation m <> 0 ->
  calculate_pose_change p m t =
  Ok (Pose.mk
        (rotate_point (Pose.position p) (Motion.rotation m)
           (Some (mkVector2
                    (x (cross (rotate_vector (Motion.translation m)
                                 (- Pose.orientation p) None)) / Motion.rotation m)
                    (y (cross (rotate_vector (Motion.translation m)
                                 (- Pose.orientation p) None)) / Motion.rotation m))))
        (float_mod (Pose.orientation p + Motion.rotation m * t) (2 * PI))).
Proof.
  intros Hr. unfold calculate_pose_change.
  destruct (Rneq_dec (Motion.rotation m) 0) as [_ | E]; [| contradiction].
  rewrite vdiv_ok by assumption. simpl bind. cbv zeta.
  apply Pose_init_ok.
Qed.

(** X9: in the arc branch the new position does not depend on the elapsed
    time: the point is turned by [motion.rotation], whatever [time] is. *)
Lemma arc_position_ignores_time (p : Pose.t) (m : Motion.t) (t1 t2 : R) (q1 q2 : Pose.t) :
  Motion.rotation m <> 0 ->
  calculate_pose_change p m t1 = Ok q1 ->
  calculate_pose_change p m t2 = Ok q2 ->
  Pose.position q1 = Pose.position q2.
Proof.
  intros Hr. rewrite !calculate_pose_change_arc by assumption.
  intros H1 H2. injection H1 as <-. injection H2 as <-. reflexivity.
Qed.

(** C1 (as stated, refuted): from the pose [((0,0), 0)], the motion
    [((0,1), -1 rad/s)] applied for one second yields the orientation
    [2*pi - 1], not the plain sum [-1]. *)
Theorem arc_advance_spec_fails :
  Pose.init (mkVector2 0 0) 0 = Ok (Pose.mk (mkVector2 0 0) 0) /\
  ~ arc_advance_spec (Pose.mk (mkVector2 0 0) 0) (Motion.mk (mkVector2 0 1) (-1)) 1.
Proof.
  split.
  - rewrite Pose_init_ok. rewrite float_mod_small by (generalize two_PI_pos; lra).
    reflexivity.
  - intros (q & centre & Hq & _ & Ho & _).
    rewrite calculate_pose_change_arc in Hq by (simpl; lra).
    injection Hq as <-. simpl in Ho.
    pose proof (float_mod_bounds (0 + -1 * 1) (2 * PI) two_PI_pos) as [Hlo _].
    lra.
Qed.

(** C1 (amended): with a non-zero rotation rate the call returns a pose
    whose orientation is [(orientation + rotation * time) % (2 * pi)],
    the value the constructor stores for that sum; it is the sum itself
    whenever the sum lies in [[0, 2*pi)]. *)
Theorem arc_orientation (p : Pose.t) (m : Motion.t) (t : R) :
  Motion.rotation m <> 0 ->
  exists q,
    calculate_pose_change p m t = Ok q /\
    py_mod (Pose.orientation p + Motion.rotation m * t) (2 * PI)
      = Ok (Pose.orientation q) /\
    (0 <= Pose.orientation p + Motion.rotation m * t < 2 * PI ->
     Pose.orientation q = Pose.orientation p + Motion.rotation m * t).
Proof.
  intros Hr. rewrite calculate_pose_change_arc by assumption.
  eexists. split; [reflexivity |]. simpl.
  split; [apply py_mod_ok; generalize two_PI_pos; lra |].
  intros Hrange. now apply float_mod_small.
Qed.

Lemma arc_orientation_witness :
  exists q,
    calculate_pose_change (Pose.mk (mkVector2 0 0) 1) (Motion.mk (mkVector2 0 1) 2) 1 = Ok q /\
    py_mod (1 + 2 * 1) (2 * PI) = Ok (Pose.orientation q) /\
    (0 <= 1 + 2 * 1 < 2 * PI -> Pose.orientation q = 1 + 2 * 1).
Proof.
  apply (arc_orientation (Pose.mk (mkVector2 0 0) 1) (Motion.mk (mkVector2 0 1) 2) 1).
  simpl. lra.
Defined.

(** C3: with a zero rotation rate the elapsed time is ignored: any two
    time steps give the same pose, whose position is the old one plus the
    translation turned into the world frame (one second's worth). *)
Theorem straight_line_ignores_time (p : Pose.t) (m : Motion.t) (t1 t2 : R) :
  Motion.rotation m = 0 ->
  calculate_pose_change p m t1 = calculate_pose_change p m t2 /\
  exists q,
    calculate_pose_change p m t1 = Ok q /\
    Pose.position q =
      vadd (Pose.position p)
           (rotate_vector (Motion.translation m) (- Pose.orientation p) None).
Proof.
  intros Hr. rewrite !calculate_pose_change_straight by assumption.
  split; [reflexivity |]. eexists. split; reflexivity.
Qed.

Lemma straight_line_ignores_time_witness :
  calculate_pose_change (Pose.mk (mkVector2 0 0) 0) (Motion.mk (mkVector2 0 100) 0) 1 =
  calculate_pose_change (Pose.mk (mkVector2 0 0) 0) (Motion.mk (mkVector2 0 100) 0) 5 /\
  exists q,
    calculate_pose_change (Pose.mk (mkVector2 0 0) 0) (Motion.mk (mkVector2 0 100) 0) 1 = Ok q /\
    Pose.position q =
      vadd (mkVector2 0 0) (rotate_vector (mkVector2 0 100) (- 0) None).
Proof.
  apply (straight_line_ignores_time
           (Pose.mk (mkVector2 0 0) 0) (Motion.mk (mkVector2 0 100) 0) 1 5).
  reflexivity.
Defined.

(** C10 (as stated, refuted): on doubles [Pose(Point2(0, 0), -1e-20)]
    stores the orientation [2 * pi] itself, and [2 * pi % (2 * pi)] is
    [0.0]; a pose whose stored orientation is [2 * pi] comes back from a
    zero motion with the orientation 0. *)
Theorem zero_motion_changes_stored_two_pi :
  Double.orientation_of_minus_1e_20 = Ok Double.two_pi /\
  Double.normalise Double.two_pi = Ok PrimFloat.zero /\
  calculate_pose_change (Pose.mk (mkVector2 0 0) (2 * PI))
    (Motion.mk (mkVector2 0 0) 0) 1 = Ok (Pose.mk (mkVector2 0 0) 0) /\
  ~ zero_motion_identity (Pose.mk (mkVector2 0 0) (2 * PI)) 1.
Proof.
  destruct double_constructor_stores_the_modulus as [H1 H2].
  split; [exact H1 |]. split; [exact H2 |].
  assert (E : calculate_pose_change (Pose.mk (mkVector2 0 0) (2 * PI))
                (Motion.mk (mkVector2 0 0) 0) 1 = Ok (Pose.mk (mkVector2 0 0) 0)).
  { rewrite calculate_pose_change_straight by reflexivity. simpl.
    rewrite rotate_zero_vector, vadd_zero.
    rewrite float_mod_self by (generalize two_PI_pos; lra). reflexivity. }
  split; [exact E |].
  unfold zero_motion_identity. rewrite E. intros H. injection H as H.
  generalize two_PI_pos. lra.
Qed.

(** C10 (amended): a pose whose stored orientation lies in [[0, 2*pi)],
    strictly below the modulus, is returned unchanged, position and
    orientation, by a zero motion over any time. *)
Theorem zero_motion_keeps_normalised_pose (p : Pose.t) (t : R) :
  0 <= Pose.orientation p < 2 * PI ->
  zero_motion_identity p t.
Proof.
  intros Hrange. unfold zero_motion_identity.
  rewrite calculate_pose_change_straight by reflexivity. simpl.
  rewrite rotate_zero_vector, vadd_zero.
  rewrite float_mod_small by exact Hrange.
  destruct p as [position orientation]. reflexivity.
Qed.

Lemma zero_motion_keeps_normalised_pose_witness :
  zero_motion_identity (Pose.mk (mkVector2 3 4) 1) 2.
Proof.
  apply (zero_motion_keeps_normalised_pose (Pose.mk (mkVector2 3 4) 1) 2).
  simpl. generalize PI_gt_3. lra.
Defined.

(** At zero elapsed time the arc branch still moves the pose. *)
Lemma arc_moves_in_zero_time :
  exists q,
    calculate_pose_change (Pose.mk (mkVector2 0 0) 0) (Motion.mk (mkVector2 0 1) 1) 0 = Ok q /\
    Pose.position q = mkVector2 (1 - cos 1) (- sin 1) /\
    Pose.position q <> mkVector2 0 0.
Proof.
  rewrite calculate_pose_change_arc by (simpl; lra).
  eexists. split; [reflexivity |].
  match goal with |- ?pos = ?v /\ _ => assert (E : pos = v) end.
  { unfold rotate_point, rotate_vector, cross. simpl.
    rewrite Ropp_0, sin_0, cos_0. f_equal; field. }
  split; [exact E |]. rewrite E.
  intros H. injection H as _ Hs.
  assert (0 < sin 1) by (apply sin_gt_0; [lra | generalize PI_gt_3; lra]).
  lra.
Qed.

(** ** Wheel construction *)

Lemma init_inv (position : Point2) (max_speed angle radius : option R)
    (vector : option Vector2) (w : OmniWheel.t) :
  OmniWheel.init position max_speed angle radius vector = Ok w ->
  exists v,
    OmniWheel.drive_vector angle radius vector = Ok v /\
    magnitude_squared v <> 0 /\
    w = OmniWheel.mk position max_speed v (magnitude_squared v)
          (x v / magnitude_squared v)
          (y v / magnitude_squared v)
          ((x v * y position - y v * x position) / magnitude_squared v).
Proof.
  unfold OmniWheel.init.
  destruct (OmniWheel.drive_vector angle radius vector) as [v | e]; [| discriminate].
  simpl. destruct (Req_dec_T (magnitude_squared v) 0) as [E | N].
  - rewrite E, py_div_zero. discriminate.
  - rewrite !py_div_ok by assumption. simpl.
    intros H. injection H as <-. exists v. auto.
Qed.

Lemma init_ok (position : Point2) (max_speed angle radius : option R)
    (vector : option Vector2) (v : Vector2) :
  OmniWheel.drive_vector angle radius vector = Ok v ->
  magnitude_squared v <> 0 ->
  OmniWheel.init position max_speed angle radius vector =
  Ok (OmniWheel.mk position max_speed v (magnitude_squared v)
        (x v / magnitude_squared v)
        (y v / magnitude_squared v)
        ((x v * y position - y v * x position) / magnitude_squared v)).
Proof.
  intros Hv Hm. unfold OmniWheel.init. rewrite Hv. simpl.
  rewrite !py_div_ok by assumption. reflexivity.
Qed.

Lemma init_zero_vector (position : Point2) (max_speed angle radius : option R)
    (vector : option Vector2) (v : Vector2) :
  OmniWheel.drive_vector angle radius vector = Ok v ->
  magnitude_squared v = 0 ->
  OmniWheel.init position max_speed angle radius vector = Raise ZeroDivisionError.
Proof.
  intros Hv Hm. unfold OmniWheel.init. rewrite Hv. simpl.
  rewrite Hm, py_div_zero. reflexivity.
Qed.

Lemma drive_vector_ok_iff (angle radius : option R) (vector : option Vector2) :
  succeeds (OmniWheel.drive_vector angle radius vector) <->
  exactly_one_specification angle radius vector.
Proof.
  unfold succeeds, exactly_one_specification, OmniWheel.drive_vector.
  destruct angle, radius, vector; split; intros H;
    try (now eexists);
    try (destruct H as [? H']; discriminate H');
    try (destruct H as [(H1 & H2 & H3) | (H1 & H2 & H3)]; congruence);
    first [ left; repeat split; congruence | right; repeat split; congruence ].
Qed.

Lemma drive_vector_error (angle radius : option R) (vector : option Vector2) (e : exn) :
  OmniWheel.drive_vector angle radius vector = Raise e -> e = ValueError.
Proof.
  unfold OmniWheel.drive_vector.
  destruct angle, radius, vector; intros H; congruence.
Qed.

(** C8 (as stated, refuted): a zero drive vector is one specification,
    supplied alone, and the constructor raises on the division by its
    squared magnitude. *)
Theorem zero_vector_is_not_constructed :
  OmniWheel.init (mkVector2 1 0) None None None (Some (mkVector2 0 0))
    = Raise ZeroDivisionError /\
  ~ construction_iff_one_specification
      (mkVector2 1 0) None None None (Some (mkVector2 0 0)).
Proof.
  assert (E : OmniWheel.init (mkVector2 1 0) None None None (Some (mkVector2 0 0))
              = Raise ZeroDivisionError).
  { apply init_zero_vector with (v := mkVector2 0 0); [reflexivity |].
    unfold magnitude_squared. simpl. ring. }
  split; [exact E |].
  unfold construction_iff_one_specification. intros [_ H].
  destruct H as [w Hw].
  - left. repeat split; congruence.
  - rewrite E in Hw. discriminate.
Qed.

(** C8 (amended): the constructor raises [ValueError] exactly when the
    caller did not supply exactly one specification; when exactly one is
    supplied it returns a wheel exactly when the resulting drive vector
    has a non-zero squared magnitude, and raises [ZeroDivisionError]
    otherwise.  (An error is never a wheel: [result] is a sum.) *)
Theorem wheel_construction (position : Point2) (max_speed angle radius : option R)
    (vector : option Vector2) :
  (OmniWheel.init position max_speed angle radius vector = Raise ValueError <->
   ~ exactly_one_specification angle radius vector) /\
  (succeeds (OmniWheel.init position max_speed angle radius vector) <->
   exactly_one_specification angle radius vector /\
   exists v, OmniWheel.drive_vector angle radius vector = Ok v /\ magnitude_squared v <> 0) /\
  (exactly_one_specification angle radius vector ->
   ~ succeeds (OmniWheel.init position max_speed angle radius vector) ->
   OmniWheel.init position max_speed angle radius vector = Raise ZeroDivisionError).
Proof.
  pose proof (drive_vector_ok_iff angle radius vector) as Hiff.
  destruct (OmniWheel.drive_vector angle radius vector) as [v | e] eqn:Hv.
  - assert (Hone : exactly_one_specification angle radius vector)
      by (apply Hiff; exists v; reflexivity).
    destruct (Req_dec_T (magnitude_squared v) 0) as [Hz | Hnz].
    + rewrite (init_zero_vector _ _ _ _ _ v Hv Hz).
      split; [| split].
      * split; [discriminate | intros H; contradiction].
      * split.
        -- intros [w Hw]. discriminate.
        -- intros (_ & v' & Hv' & Hnz). injection Hv' as ->. contradiction.
      * intros _ _. reflexivity.
    + rewrite (init_ok _ _ _ _ _ v Hv Hnz).
      split; [| split].
      * split; [discriminate | intros H; contradiction].
      * split.
        -- intros _. split; [exact Hone |]. exists v. split; [reflexivity | exact Hnz].
        -- intros _. eexists. reflexivity.
      * intros _ H. exfalso. apply H. eexists. reflexivity.
  - assert (Hnone : ~ exactly_one_specification angle radius vector).
    { intros H. apply Hiff in H. destruct H as [v H]. discriminate. }
    assert (E : OmniWheel.init position max_speed angle radius vector = Raise ValueError).
    { unfold OmniWheel.init. rewrite Hv.
      apply drive_vector_error in Hv as ->. reflexivity. }
    rewrite E. split; [| split].
    + split; [intros _; exact Hnone | reflexivity].
    + split.
      * intros [w Hw]. discriminate.
      * intros [H _]. contradiction.
    + intros H. contradiction.
Qed.

(** ** Wheel speeds *)

Lemma constructed_magnitude (w : OmniWheel.t) :
  constructed w -> OmniWheel.vector_magnitude_squared w <> 0.
Proof.
  intros (position & max_speed & angle & radius & vector & H).
  apply init_inv in H as (v & _ & Hnz & ->). exact Hnz.
Qed.

Lemma constructed_speed (w : OmniWheel.t) (velocity : Vector2) :
  constructed w -> succeeds (OmniWheel.speed w velocity).
Proof.
  intros H. unfold OmniWheel.speed.
  rewrite py_div_ok by now apply constructed_magnitude.
  eexists. reflexivity.
Qed.

(** For a constructed wheel and the default origin, the speed is the
    row of cached coefficients applied to the requested motion. *)
Lemma speed_is_linear (w : OmniWheel.t) (translation : Vector2) (rotation : R) :
  constructed w ->
  OmniWheel.speed w
    (velocity_at translation rotation (default_origin None) (OmniWheel.position w))
  = Ok (OmniWheel.co_x w * x translation + OmniWheel.co_y w * y translation
        + OmniWheel.co_theta w * rotation).
Proof.
  intros (position & max_speed & angle & radius & vector & H).
  apply init_inv in H as (v & _ & Hnz & ->).
  unfold OmniWheel.speed. simpl. rewrite py_div_ok by assumption.
  f_equal. unfold dot, velocity_at, vadd, vscale, cross, vsub. simpl.
  field. exact Hnz.
Qed.

Lemma traverse_total {A B : Type} (f : A -> result B) (xs : list A) :
  Forall (fun a => succeeds (f a)) xs ->
  exists ys, traverse f xs = Ok ys /\ length ys = length xs.
Proof.
  induction 1 as [| a rest [b Hb] _ (ys & Hys & Hlen)]; simpl.
  - exists []. split; reflexivity.
  - rewrite Hb. simpl. rewrite Hys. simpl.
    exists (b :: ys). split; [reflexivity | simpl; now rewrite Hlen].
Qed.

Lemma wheel_speeds_total (ch : HoloChassis.t) (translation : Vector2) (rotation : R)
    (origin : Point2) :
  Forall constructed (HoloChassis.wheels ch) ->
  exists unscaled,
    wheel_speeds ch translation rotation origin = Ok unscaled /\
    length unscaled = length (HoloChassis.wheels ch).
Proof.
  intros H. unfold wheel_speeds. apply traverse_total.
  eapply Forall_impl; [| exact H]. intros w Hw. now apply constructed_speed.
Qed.

(** What [get_wheel_speeds] returns, given the two intermediate values. *)
Lemma get_wheel_speeds_inv (ch : HoloChassis.t) (translation : Vector2) (rotation : R)
    (origin : option Point2) (ws : WheelSpeeds.t) :
  get_wheel_speeds ch translation rotation origin = Ok ws ->
  exists unscaled scale,
    wheel_speeds ch translation rotation (default_origin origin) = Ok unscaled /\
    scale_loop 1 (combine unscaled (HoloChassis.wheels ch)) = Ok scale /\
    ws = WheelSpeeds.mk (map (fun speed => speed * scale) unscaled) scale.
Proof.
  unfold get_wheel_speeds. cbv zeta.
  destruct (wheel_speeds ch translation rotation (default_origin origin))
    as [unscaled | e] eqn:Hu; [| discriminate].
  simpl.
  destruct (scale_loop 1 (combine unscaled (HoloChassis.wheels ch)))
    as [scale | e] eqn:Hs; [| discriminate].
  simpl. intros H. injection H as <-.
  exists unscaled, scale. repeat split. exact Hs.
Qed.

Lemma get_wheel_speeds_ok (ch : HoloChassis.t) (translation : Vector2) (rotation : R)
    (origin : option Point2) (unscaled : list R) (scale : R) :
  wheel_speeds ch translation rotation (default_origin origin) = Ok unscaled ->
  scale_loop 1 (combine unscaled (HoloChassis.wheels ch)) = Ok scale ->
  get_wheel_speeds ch translation rotation origin =
  Ok (WheelSpeeds.mk (map (fun speed => speed * scale) unscaled) scale).
Proof.
  intros Hu Hs. unfold get_wheel_speeds. cbv zeta. rewrite Hu. simpl.
  rewrite Hs. reflexivity.
Qed.

(** ** Round trip through the forward kinematics *)

Lemma cramer_3x3 (a11 a12 a13 a21 a22 a23 a31 a32 a33 u v w : R) :
  det3 a11 a12 a13 a21 a22 a23 a31 a32 a33 <> 0 ->
  np_solve [[a11; a12; a13]; [a21; a22; a23]; [a31; a32; a33]]
           [a11 * u + a12 * v + a13 * w;
            a21 * u + a22 * v + a23 * w;
            a31 * u + a32 * v + a33 * w]
  = Ok [u; v; w].
Proof.
  intros Hd. unfold np_solve. cbv zeta.
  destruct (Req_dec_T (det3 a11 a12 a13 a21 a22 a23 a31 a32 a33) 0) as [E | _];
    [contradiction |].
  set (d := det3 a11 a12 a13 a21 a22 a23 a31 a32 a33) in *.
  assert (Hq : forall n k : R, n = k * d -> n / d = k).
  { intros n k ->. field. exact Hd. }
  f_equal. f_equal; [| f_equal; [| f_equal]];
    apply Hq; unfold d, det3; ring.
Qed.

(** C5: for three constructed wheels with a non-singular coefficient
    matrix, when the inverse kinematics at the default origin reports
    [scaling = 1], the forward kinematics applied to the returned speeds
    gives back the requested translation and rotation. *)
Theorem round_trip (w1 w2 w3 : OmniWheel.t) (translation : Vector2) (rotation : R)
    (ws : WheelSpeeds.t) :
  constructed w1 -> constructed w2 -> constructed w3 ->
  det (HoloChassis.matrix_coefficients (HoloChassis.init [w1; w2; w3])) <> 0 ->
  get_wheel_speeds (HoloChassis.init [w1; w2; w3]) translation rotation None = Ok ws ->
  WheelSpeeds.scaling ws = 1 ->
  calculate_motion (HoloChassis.init [w1; w2; w3]) (WheelSpeeds.speeds ws)
  = Ok (Motion.mk translation rotation).
Proof.
  intros H1 H2 H3 Hdet Hws Hscale.
  apply get_wheel_speeds_inv in Hws as (unscaled & scale & Hu & _ & ->).
  simpl in Hscale. subst scale.
  unfold wheel_speeds in Hu. simpl in Hu.
  rewrite !speed_is_linear in Hu by assumption. simpl in Hu.
  injection Hu as <-.
  unfold HoloChassis.init in *.
  cbn [HoloChassis.matrix_coefficients map det] in Hdet.
  unfold calculate_motion.
  cbn [HoloChassis.matrix_coefficients map WheelSpeeds.speeds].
  rewrite !Rmult_1_r.
  rewrite cramer_3x3 by exact Hdet.
  destruct translation as [tx ty]. reflexivity.
Qed.

Lemma vector_wheel_ok (position : Point2) (max_speed : option R) (v : Vector2) :
  magnitude_squared v <> 0 ->
  OmniWheel.init position max_speed None None (Some v) =
  Ok (OmniWheel.mk position max_speed v (magnitude_squared v)
        (x v / magnitude_squared v)
        (y v / magnitude_squared v)
        ((x v * y position - y v * x position) / magnitude_squared v)).
Proof.
  intros Hnz. now apply init_ok.
Qed.

Lemma Forall_combine_snd {A B : Type} (Q : B -> Prop) (l1 : list A) (l2 : list B) :
  Forall Q l2 -> Forall (fun p => Q (snd p)) (combine l1 l2).
Proof.
  intros H. revert l1.
  induction H as [| b l2 Hb _ IH]; intros [| a l1]; simpl; constructor; auto.
Qed.

(** A chassis none of whose wheels has a limit is never scaled. *)
Lemma scale_loop_unlimited (scale : R) (pairs : list (R * OmniWheel.t)) :
  Forall (fun p => OmniWheel.max_speed (snd p) = None) pairs ->
  scale_loop scale pairs = Ok scale.
Proof.
  induction 1 as [| [speed wheel] rest Hnone _ IH]; simpl; [reflexivity |].
  simpl in Hnone. rewrite Hnone. exact IH.
Qed.

Lemma round_trip_witness :
  exists w1 w2 w3 ws,
    OmniWheel.init (mkVector2 0 0) None None None (Some (mkVector2 1 0)) = Ok w1 /\
    unit_wheel None = Ok w2 /\
    OmniWheel.init (mkVector2 0 1) None None None (Some (mkVector2 1 0)) = Ok w3 /\
    get_wheel_speeds (HoloChassis.init [w1; w2; w3]) (mkVector2 1 2) 3 None = Ok ws /\
    WheelSpeeds.scaling ws = 1 /\
    calculate_motion (HoloChassis.init [w1; w2; w3]) (WheelSpeeds.speeds ws)
    = Ok (Motion.mk (mkVector2 1 2) 3).
Proof.
  assert (N10 : magnitude_squared (mkVector2 1 0) <> 0)
    by (unfold magnitude_squared; simpl; lra).
  assert (N01 : magnitude_squared (mkVector2 0 1) <> 0)
    by (unfold magnitude_squared; simpl; lra).
  pose proof (vector_wheel_ok (mkVector2 0 0) None _ N10) as E1.
  pose proof (vector_wheel_ok (mkVector2 0 0) None _ N01) as E2.
  pose proof (vector_wheel_ok (mkVector2 0 1) None _ N10) as E3.
  match type of E1 with _ = Ok ?w => set (w1 := w) in * end.
  match type of E2 with _ = Ok ?w => set (w2 := w) in * end.
  match type of E3 with _ = Ok ?w => set (w3 := w) in * end.
  assert (C1 : constructed w1) by (repeat eexists; exact E1).
  assert (C2 : constructed w2) by (repeat eexists; exact E2).
  assert (C3 : constructed w3) by (repeat eexists; exact E3).
  destruct (wheel_speeds_total (HoloChassis.init [w1; w2; w3]) (mkVector2 1 2) 3
              (default_origin None)) as (unscaled & Hu & _).
  { simpl. repeat constructor; assumption. }
  assert (Hs : scale_loop 1 (combine unscaled (HoloChassis.wheels (HoloChassis.init [w1; w2; w3])))
               = Ok 1).
  { apply scale_loop_unlimited.
    apply (Forall_combine_snd (fun w => OmniWheel.max_speed w = None)).
    simpl. repeat constructor. }
  pose proof (get_wheel_speeds_ok _ _ _ None _ _ Hu Hs) as Hws.
  exists w1, w2, w3. eexists.
  split; [exact E1 |]. split; [exact E2 |]. split; [exact E3 |].
  split; [exact Hws |]. split; [reflexivity |].
  apply (round_trip w1 w2 w3 (mkVector2 1 2) 3 _ C1 C2 C3); [| exact Hws | reflexivity].
  unfold det, det3. simpl. unfold magnitude_squared. simpl.
  match goal with |- ?e <> 0 => replace e with 1 by (field; lra) end. lra.
Defined.

(** ** The scaling loop *)

Lemma nth_error_zip_inv {A B : Type} (l1 : list A) (l2 : list B) (i : nat) (a : A) (b : B) :
  nth_error (combine l1 l2) i = Some (a, b) ->
  nth_error l1 i = Some a /\ nth_error l2 i = Some b.
Proof.
  revert l2 i. induction l1 as [| a1 l1 IH]; intros [| b1 l2] [| i]; simpl;
    try discriminate.
  - intros H. injection H as -> ->. now split.
  - apply IH.
Qed.

Lemma nth_error_zip {A B : Type} (l1 : list A) (l2 : list B) (i : nat) (a : A) (b : B) :
  nth_error l1 i = Some a -> nth_error l2 i = Some b ->
  nth_error (combine l1 l2) i = Some (a, b).
Proof.
  revert l2 i. induction l1 as [| a1 l1 IH]; intros [| b1 l2] [| i]; simpl;
    try discriminate.
  - intros H1 H2. injection H1 as ->. injection H2 as ->. reflexivity.
  - apply IH.
Qed.

Lemma py_min_le_l (a b : R) : py_min a b <= a.
Proof. unfold py_min. destruct (Rlt_dec b a); lra. Qed.

Lemma py_min_le_r (a b : R) : py_min a b <= b.
Proof. unfold py_min. destruct (Rlt_dec b a); lra. Qed.

Lemma py_min_cases (a b : R) : py_min a b = a \/ (py_min a b = b /\ b < a).
Proof. unfold py_min. destruct (Rlt_dec b a); [right | left]; auto. Qed.

(** The loop only ever lowers [scale]. *)
Lemma scale_loop_le (pairs : list (R * OmniWheel.t)) (scale s : R) :
  scale_loop scale pairs = Ok s -> s <= scale.
Proof.
  revert scale. induction pairs as [| [speed wheel] rest IH]; intros scale; simpl.
  - intros H. injection H as <-. lra.
  - destruct (OmniWheel.max_speed wheel) as [limit |]; [| apply IH].
    destruct (Rgt_dec (Rabs speed) limit) as [Hgt | _]; [| apply IH].
    destruct (py_div limit (Rabs speed)) as [q | e]; [| discriminate].
    simpl. intros H. apply IH in H. pose proof (py_min_le_l scale q). lra.
Qed.

(** With positive limits the loop returns a positive scale: either the
    starting one, or the quotient of some violating wheel, and in both
    cases no larger than the quotient of any violating wheel. *)
Lemma scale_loop_positive (pairs : list (R * OmniWheel.t)) :
  Forall (fun p => positive_limit (snd p)) pairs ->
  forall scale, 0 < scale ->
  exists s,
    scale_loop scale pairs = Ok s /\
    0 < s <= scale /\
    (s = scale \/
     exists speed wheel limit,
       In (speed, wheel) pairs /\ OmniWheel.max_speed wheel = Some limit /\
       limit < Rabs speed /\ s = limit / Rabs speed) /\
    (forall speed wheel limit,
       In (speed, wheel) pairs -> OmniWheel.max_speed wheel = Some limit ->
       limit < Rabs speed -> s <= limit / Rabs speed).
Proof.
  induction 1 as [| [speed wheel] rest Hpos _ IH]; intros scale Hscale.
  - exists scale. simpl. split; [reflexivity |]. split; [lra |].
    split; [now left | intros ? ? ? []].
  - simpl. unfold positive_limit in Hpos. simpl in Hpos.
    destruct (OmniWheel.max_speed wheel) as [limit |] eqn:Hmax.
    + destruct (Rgt_dec (Rabs speed) limit) as [Hgt | Hle].
      * assert (Habs : Rabs speed <> 0) by lra.
        rewrite py_div_ok by exact Habs. simpl.
        assert (Hq : 0 < limit / Rabs speed < 1).
        { split.
          - apply Rdiv_lt_0_compat; lra.
          - apply Rmult_lt_reg_r with (Rabs speed); [lra |].
            unfold Rdiv. rewrite Rmult_assoc, Rinv_l by exact Habs. lra. }
        assert (Hmin : 0 < py_min scale (limit / Rabs speed)).
        { destruct (py_min_cases scale (limit / Rabs speed)) as [-> | [-> _]]; lra. }
        destruct (IH _ Hmin) as (s & Hs & [Hs0 Hs1] & Hsrc & Hall).
        exists s. split; [exact Hs |].
        pose proof (py_min_le_l scale (limit / Rabs speed)) as Hl.
        pose proof (py_min_le_r scale (limit / Rabs speed)) as Hr.
        split; [lra |]. split.
        -- destruct Hsrc as [-> | (sp & w & l & Hin & Hw & Hv & ->)].
           ++ destruct (py_min_cases scale (limit / Rabs speed)) as [-> | [-> _]];
                [now left |].
              right. exists speed, wheel, limit. repeat split; auto; now left.
           ++ right. exists sp, w, l. repeat split; auto; now right.
        -- intros sp w l [Heq | Hin] Hw Hv.
           ++ injection Heq as <- <-. rewrite Hmax in Hw. injection Hw as <-. lra.
           ++ now apply (Hall sp w l).
      * destruct (IH _ Hscale) as (s & Hs & Hrange & Hsrc & Hall).
        exists s. split; [exact Hs |]. split; [exact Hrange |]. split.
        -- destruct Hsrc as [-> | (sp & w & l & Hin & Hw & Hv & ->)]; [now left |].
           right. exists sp, w, l. repeat split; auto; now right.
        -- intros sp w l [Heq | Hin] Hw Hv.
           ++ injection Heq as <- <-. rewrite Hmax in Hw. injection Hw as <-. lra.
           ++ now apply (Hall sp w l).
    + destruct (IH _ Hscale) as (s & Hs & Hrange & Hsrc & Hall).
      exists s. split; [exact Hs |]. split; [exact Hrange |]. split.
      * destruct Hsrc as [-> | (sp & w & l & Hin & Hw & Hv & ->)]; [now left |].
        right. exists sp, w, l. repeat split; auto; now right.
      * intros sp w l [Heq | Hin] Hw Hv.
        -- injection Heq as <- <-. congruence.
        -- now apply (Hall sp w l).
Qed.

(** One run of the chassis made of a single [unit_wheel] with limit
    [limit], asked to move along +Y at [ty] mm/s with [limit < ty]: the
    wheel speed is [ty] rev/s and the scaling is [limit / ty]. *)
Lemma unit_wheel_run (limit ty : R) :
  0 < ty -> limit < ty ->
  exists w,
    unit_wheel (Some limit) = Ok w /\
    OmniWheel.max_speed w = Some limit /\
    HoloChassis.wheels (HoloChassis.init [w]) = [w] /\
    wheel_speeds (HoloChassis.init [w]) (mkVector2 0 ty) 0 (default_origin None)
      = Ok [ty] /\
    get_wheel_speeds (HoloChassis.init [w]) (mkVector2 0 ty) 0 None
      = Ok (WheelSpeeds.mk [ty * (limit / ty)] (limit / ty)).
Proof.
  intros Hty Hlt.
  assert (N01 : magnitude_squared (mkVector2 0 1) <> 0)
    by (unfold magnitude_squared; simpl; lra).
  pose proof (vector_wheel_ok (mkVector2 0 0) (Some limit) _ N01) as E.
  match type of E with _ = Ok ?w0 => exists w0 end.
  split; [exact E |]. split; [reflexivity |]. split; [reflexivity |].
  assert (Hu : wheel_speeds
                 (HoloChassis.init
                    [OmniWheel.mk (mkVector2 0 0) (Some limit) (mkVector2 0 1)
                       (magnitude_squared (mkVector2 0 1))
                       (x (mkVector2 0 1) / magnitude_squared (mkVector2 0 1))
                       (y (mkVector2 0 1) / magnitude_squared (mkVector2 0 1))
                       ((x (mkVector2 0 1) * y (mkVector2 0 0)
                         - y (mkVector2 0 1) * x (mkVector2 0 0))
                        / magnitude_squared (mkVector2 0 1))])
                 (mkVector2 0 ty) 0 (default_origin None) = Ok [ty]).
  { unfold wheel_speeds, OmniWheel.speed. simpl.
    rewrite py_div_ok by exact N01. simpl. do 2 f_equal.
    unfold dot, velocity_at, vadd, vscale, cross, vsub, magnitude_squared. simpl.
    field. }
  split; [exact Hu |].
  apply get_wheel_speeds_ok with (unscaled := [ty]); [exact Hu |].
  simpl. rewrite (Rabs_right ty) by lra.
  destruct (Rgt_dec ty limit) as [_ | N]; [| lra].
  rewrite py_div_ok by lra. simpl. f_equal.
  unfold py_min. destruct (Rlt_dec (limit / ty) 1) as [_ | N]; [reflexivity |].
  exfalso. apply N. apply Rmult_lt_reg_r with ty; [lra |].
  unfold Rdiv. rewrite Rmult_assoc, Rinv_l by lra. lra.
Qed.

(** The invariant as stated fails at two chassis of one wheel.  With the
    limit [0] (the value a wheel gets when no [max_speed] is passed) the
    scaling is [0] and [1 / scaling] does not exist; with the limit [-1]
    the scaling is [-1/2] and the returned speed [-1] has magnitude [1],
    above the limit. *)
Lemma scaling_invariant_fails :
  (exists w, unit_wheel (Some 0) = Ok w /\
             ~ scaling_invariant (HoloChassis.init [w]) (mkVector2 0 1) 0 None) /\
  (exists w, unit_wheel (Some (-1)) = Ok w /\
             ~ scaling_invariant (HoloChassis.init [w]) (mkVector2 0 2) 0 None).
Proof.
  split.
  - destruct (unit_wheel_run 0 1) as (w & Hw & Hmax & Hwheels & Hu & Hws); [lra | lra |].
    exists w. split; [exact Hw |]. intros Hinv.
    destruct (Hinv _ _ Hu Hws) as [[i Hbind] _]; [simpl; lra |].
    destruct Hbind as (w' & sp & l & ratio & ret & _ & _ & _ & _ & Hdiv & _).
    simpl in Hdiv. apply py_div_inv in Hdiv as [Hnz _]. lra.
  - destruct (unit_wheel_run (-1) 2) as (w & Hw & Hmax & Hwheels & Hu & Hws); [lra | lra |].
    exists w. split; [exact Hw |]. intros Hinv.
    destruct (Hinv _ _ Hu Hws) as [_ Hlim]; [simpl; lra |].
    specialize (Hlim 0%nat w (-1) (2 * (-1 / 2))).
    rewrite Hwheels in Hlim. simpl in Hlim.
    specialize (Hlim eq_refl Hmax eq_refl).
    pose proof (Rabs_pos (2 * (-1 / 2))). lra.
Qed.

(** C4 (as stated, refuted): the two chassis above, and on doubles a
    chassis whose only wheel has the positive limit 1.3: asked for a
    speed of 10000 it is returned [1.3000000000000003], above its limit
    and not at it. *)
Theorem scaling_invariant_refuted :
  ((exists w, unit_wheel (Some 0) = Ok w /\
              ~ scaling_invariant (HoloChassis.init [w]) (mkVector2 0 1) 0 None) /\
   (exists w, unit_wheel (Some (-1)) = Ok w /\
              ~ scaling_invariant (HoloChassis.init [w]) (mkVector2 0 2) 0 None)) /\
  Double.throttled_run = Ok Double.throttled_result /\
  Double.exceeds_limit Double.throttled_result = true.
Proof.
  split; [exact scaling_invariant_fails | exact double_throttled_speed_exceeds_limit].
Qed.

(** The scaling the loop reaches, wheel by wheel. *)
Lemma scale_loop_tightest (wheels : list OmniWheel.t) (unscaled : list R) :
  Forall positive_limit wheels ->
  exists s,
    scale_loop 1 (combine unscaled wheels) = Ok s /\
    tightest_scaling wheels unscaled s.
Proof.
  intros Hp.
  destruct (scale_loop_positive (combine unscaled wheels)
              (Forall_combine_snd positive_limit _ _ Hp) 1 Rlt_0_1)
    as (s & Hs & Hrange & Hsrc & Hall).
  exists s. split; [exact Hs |]. split; [exact Hrange |]. split.
  - destruct Hsrc as [-> | (sp & w & l & Hin & Hw & Hv & Heq)]; [now left |].
    right. apply In_nth_error in Hin as [i Hi].
    apply nth_error_zip_inv in Hi as [Hi1 Hi2].
    exists i, w, sp, l. auto.
  - intros j w sp l Hj Hsp Hw Hv.
    apply (Hall sp w l); auto.
    eapply nth_error_In, nth_error_zip; eauto.
Qed.

(** C4 (amended): for a chassis of constructed wheels whose limits, where
    set, are all positive, the call returns, and whenever the returned
    scaling [s] is below 1: some wheel whose speed exceeds its limit has
    [maxSpeed / |speed|] equal to [s]; [s] is no larger than that
    quotient for any wheel whose speed exceeds its limit; and every wheel
    whose speed was within its limit is returned a speed within its
    limit. *)
Theorem scaling_invariant_by_quotient_holds (ch : HoloChassis.t) (translation : Vector2)
    (rotation : R) (origin : option Point2) :
  Forall constructed (HoloChassis.wheels ch) ->
  Forall positive_limit (HoloChassis.wheels ch) ->
  succeeds (get_wheel_speeds ch translation rotation origin) /\
  scaling_invariant_by_quotient ch translation rotation origin.
Proof.
  intros Hc Hp.
  destruct (wheel_speeds_total ch translation rotation (default_origin origin) Hc)
    as (unscaled & Hu & _).
  destruct (scale_loop_tightest (HoloChassis.wheels ch) unscaled Hp)
    as (s & Hs & [Hs0 Hs1] & Hsrc & Hall).
  pose proof (get_wheel_speeds_ok _ _ _ _ _ _ Hu Hs) as Hws.
  split; [eexists; exact Hws |].
  intros unscaled' ws' Hu' Hws' Hlt.
  rewrite Hu in Hu'. injection Hu' as <-.
  rewrite Hws in Hws'. injection Hws' as <-. simpl in Hlt.
  assert (Hlimit : forall j w l, nth_error (HoloChassis.wheels ch) j = Some w ->
                                 OmniWheel.max_speed w = Some l -> 0 < l).
  { intros j w l Hj Hw. apply nth_error_In in Hj.
    rewrite Forall_forall in Hp. specialize (Hp w Hj).
    unfold positive_limit in Hp. now rewrite Hw in Hp. }
  split; [| split].
  - destruct Hsrc as [-> | (i & w & sp & l & Hi & Hsp & Hw & Hv & Heq)]; [lra |].
    pose proof (Hlimit i w l Hi Hw) as Hl.
    exists i, w, sp, l. simpl.
    repeat split; auto.
    rewrite py_div_ok by lra. now rewrite Heq.
  - intros j w sp l Hj Hsp Hw Hv. simpl.
    pose proof (Hlimit j w l Hj Hw) as Hl.
    exists (l / Rabs sp). split; [apply py_div_ok; lra |].
    now apply (Hall j w sp l).
  - intros j w sp l r Hj Hsp Hw Hok Hr. simpl in Hr.
    rewrite nth_error_map, Hsp in Hr. simpl in Hr. injection Hr as <-.
    pose proof (Rabs_pos sp) as Habs.
    rewrite Rabs_mult, (Rabs_right s) by lra.
    apply Rle_trans with (Rabs sp * 1); [apply Rmult_le_compat_l; lra | lra].
Qed.

Lemma scaling_invariant_by_quotient_holds_witness :
  exists w ws,
    unit_wheel (Some 1) = Ok w /\
    get_wheel_speeds (HoloChassis.init [w]) (mkVector2 0 2) 0 None = Ok ws /\
    WheelSpeeds.scaling ws < 1 /\
    succeeds (get_wheel_speeds (HoloChassis.init [w]) (mkVector2 0 2) 0 None) /\
    scaling_invariant_by_quotient (HoloChassis.init [w]) (mkVector2 0 2) 0 None.
Proof.
  destruct (unit_wheel_run 1 2) as (w & Hw & Hmax & Hwheels & Hu & Hws); [lra | lra |].
  exists w. eexists.
  split; [exact Hw |]. split; [exact Hws |]. split; [simpl; lra |].
  apply (scaling_invariant_by_quotient_holds (HoloChassis.init [w]) (mkVector2 0 2) 0 None).
  - rewrite Hwheels. constructor; [| constructor].
    unfold unit_wheel in Hw. repeat eexists. exact Hw.
  - rewrite Hwheels. constructor; [| constructor].
    unfold positive_limit. rewrite Hmax. lra.
Defined.

(** C7 (as stated, refuted): a wheel whose limit is [0] and whose
    requested speed is [1] rev/s brings the scaling to [0]. *)
Theorem zero_limit_scaling_is_zero :
  exists w,
    unit_wheel (Some 0) = Ok w /\
    get_wheel_speeds (HoloChassis.init [w]) (mkVector2 0 1) 0 None
      = Ok (WheelSpeeds.mk [1 * (0 / 1)] (0 / 1)) /\
    ~ scaling_in_unit_interval (HoloChassis.init [w]) (mkVector2 0 1) 0 None.
Proof.
  destruct (unit_wheel_run 0 1) as (w & Hw & _ & _ & _ & Hws); [lra | lra |].
  exists w. split; [exact Hw |]. split; [exact Hws |].
  intros (ws & Hws' & Hpos & _).
  rewrite Hws in Hws'. injection Hws' as <-. simpl in Hpos. lra.
Qed.

(** C7 (amended): for a chassis of constructed wheels whose limits, where
    set, are all positive, the call returns a scaling in [(0, 1]]; and
    whatever the limits, a returned scaling is never greater than 1. *)
Theorem scaling_range (ch : HoloChassis.t) (translation : Vector2) (rotation : R)
    (origin : option Point2) :
  (Forall constructed (HoloChassis.wheels ch) ->
   Forall positive_limit (HoloChassis.wheels ch) ->
   scaling_in_unit_interval ch translation rotation origin) /\
  (forall ws, get_wheel_speeds ch translation rotation origin = Ok ws ->
              WheelSpeeds.scaling ws <= 1).
Proof.
  split.
  - intros Hc Hp.
    destruct (wheel_speeds_total ch translation rotation (default_origin origin) Hc)
      as (unscaled & Hu & _).
    destruct (scale_loop_positive (combine unscaled (HoloChassis.wheels ch))
                (Forall_combine_snd positive_limit _ _ Hp) 1 Rlt_0_1)
      as (s & Hs & Hrange & _).
    eexists. split; [apply (get_wheel_speeds_ok _ _ _ _ _ _ Hu Hs) |]. exact Hrange.
  - intros ws Hws.
    apply get_wheel_speeds_inv in Hws as (unscaled & scale & _ & Hs & ->).
    simpl. now apply scale_loop_le in Hs.
Qed.

Lemma scaling_range_witness :
  exists w,
    unit_wheel (Some 1) = Ok w /\
    scaling_in_unit_interval (HoloChassis.init [w]) (mkVector2 0 2) 0 None.
Proof.
  destruct (unit_wheel_run 1 2) as (w & Hw & Hmax & Hwheels & _); [lra | lra |].
  exists w. split; [exact Hw |].
  apply (proj1 (scaling_range (HoloChassis.init [w]) (mkVector2 0 2) 0 None)).
  - rewrite Hwheels. constructor; [| constructor].
    unfold unit_wheel in Hw. repeat eexists. exact Hw.
  - rewrite Hwheels. constructor; [| constructor].
    unfold positive_limit. rewrite Hmax. lra.
Defined.

(** ** The default [max_speed] *)

Lemma Rdiv_nonzero (a b : R) : a <> 0 -> b <> 0 -> a / b <> 0.
Proof.
  intros Ha Hb H. apply Ha.
  apply Rmult_eq_reg_r with (/ b); [| now apply Rinv_neq_0_compat].
  unfold Rdiv in H. rewrite H. ring.
Qed.

Lemma scale_loop_stalled_step (scale speed : R) (wheel : OmniWheel.t)
    (rest : list (R * OmniWheel.t)) :
  0 <= scale -> stalled (speed, wheel) ->
  scale_loop scale ((speed, wheel) :: rest) = scale_loop 0 rest.
Proof.
  intros Hscale [Hmax Hsp]. simpl in Hmax, Hsp. simpl. rewrite Hmax.
  pose proof (Rabs_pos_lt speed Hsp) as Habs.
  destruct (Rgt_dec (Rabs speed) 0) as [_ | N]; [| lra].
  rewrite py_div_ok by lra. simpl.
  replace (py_min scale (0 / Rabs speed)) with 0; [reflexivity |].
  assert (Hz : 0 / Rabs speed = 0) by (field; lra).
  unfold py_min. rewrite Hz. destruct (Rlt_dec 0 scale); lra.
Qed.

Lemma scale_loop_stalled (pairs : list (R * OmniWheel.t)) :
  Forall stalled pairs -> scale_loop 0 pairs = Ok 0.
Proof.
  induction 1 as [| [speed wheel] rest Hst _ IH]; [reflexivity |].
  rewrite scale_loop_stalled_step by (auto; lra). exact IH.
Qed.

(** C6 (the code departs from the claim): the chassis of the source's
    [test()], two wheels built with [angle=0, radius=60] and no
    [max_speed], asked for a pure rotation of 0.5 rad/s.  Both computed
    speeds are non-zero, yet the scaling is [0] and every returned speed
    is [0]: the wheels got the limit [0], not [None]. *)
Theorem default_max_speed_stalls_test_chassis :
  exists a b unscaled ws,
    test_wheel_a = Ok a /\ test_wheel_b = Ok b /\
    OmniWheel.max_speed a = Some 0 /\ OmniWheel.max_speed b = Some 0 /\
    wheel_speeds (HoloChassis.init [a; b]) (mkVector2 0 0) (1 / 2) (default_origin None)
      = Ok unscaled /\
    Forall (fun speed => speed <> 0) unscaled /\
    get_wheel_speeds (HoloChassis.init [a; b]) (mkVector2 0 0) (1 / 2) None = Ok ws /\
    WheelSpeeds.scaling ws = 0 /\
    Forall (fun speed => speed = 0) (WheelSpeeds.speeds ws).
Proof.
  set (c := 2 * PI * 60).
  assert (Hc : c <> 0) by (unfold c; generalize PI_RGT_0; lra).
  set (v := mkVector2 (sin 0 * c) (cos 0 * c)).
  assert (Hv : OmniWheel.drive_vector (Some 0) (Some 60) None = Ok v) by reflexivity.
  assert (Hms : magnitude_squared v = c * c).
  { unfold magnitude_squared, v. simpl. rewrite sin_0, cos_0. ring. }
  assert (Hnz : magnitude_squared v <> 0).
  { rewrite Hms. intros H. apply Rmult_integral in H. tauto. }
  pose proof (init_ok (mkVector2 1 0) OmniWheel.default_max_speed _ _ _ v Hv Hnz) as Ea.
  pose proof (init_ok (mkVector2 (-1) 0) OmniWheel.default_max_speed _ _ _ v Hv Hnz) as Eb.
  match type of Ea with _ = Ok ?w => set (a := w) in * end.
  match type of Eb with _ = Ok ?w => set (b := w) in * end.
  set (sa := dot (velocity_at (mkVector2 0 0) (1 / 2) (default_origin None) (mkVector2 1 0)) v
             / magnitude_squared v).
  set (sb := dot (velocity_at (mkVector2 0 0) (1 / 2) (default_origin None) (mkVector2 (-1) 0)) v
             / magnitude_squared v).
  assert (Hsa : sa <> 0).
  { apply Rdiv_nonzero; [| exact Hnz].
    unfold dot, velocity_at, vadd, vscale, cross, vsub, v. simpl.
    rewrite sin_0, cos_0. lra. }
  assert (Hsb : sb <> 0).
  { apply Rdiv_nonzero; [| exact Hnz].
    unfold dot, velocity_at, vadd, vscale, cross, vsub, v. simpl.
    rewrite sin_0, cos_0. lra. }
  assert (Hu : wheel_speeds (HoloChassis.init [a; b]) (mkVector2 0 0) (1 / 2)
                 (default_origin None) = Ok [sa; sb]).
  { unfold wheel_speeds, OmniWheel.speed. simpl.
    rewrite !py_div_ok by exact Hnz. reflexivity. }
  assert (Hs : scale_loop 1 (combine [sa; sb] (HoloChassis.wheels (HoloChassis.init [a; b])))
               = Ok 0).
  { simpl combine.
    rewrite scale_loop_stalled_step
      by first [lra | split; [reflexivity | exact Hsa]].
    apply scale_loop_stalled. repeat constructor. exact Hsb. }
  exists a, b, [sa; sb]. eexists.
  split; [exact Ea |]. split; [exact Eb |].
  split; [reflexivity |]. split; [reflexivity |].
  split; [exact Hu |]. split; [repeat constructor; assumption |].
  split; [apply (get_wheel_speeds_ok _ _ _ None _ _ Hu Hs) |].
  split; [reflexivity |].
  simpl. repeat constructor; ring.
Qed.

(** Had the two wheels been built with [max_speed=None], the same call
    would return the computed speeds with a scaling of [1]. *)
Lemma unlimited_wheels_are_not_scaled (ch : HoloChassis.t) (translation : Vector2)
    (rotation : R) (origin : option Point2) (unscaled : list R) :
  Forall (fun w => OmniWheel.max_speed w = None) (HoloChassis.wheels ch) ->
  wheel_speeds ch translation rotation (default_origin origin) = Ok unscaled ->
  get_wheel_speeds ch translation rotation origin
  = Ok (WheelSpeeds.mk (map (fun speed => speed * 1) unscaled) 1).
Proof.
  intros Hnone Hu. apply get_wheel_speeds_ok; [exact Hu |].
  apply scale_loop_unlimited.
  now apply (Forall_combine_snd (fun w => OmniWheel.max_speed w = None)).
Qed.

(** * Further properties of the module *)

(** ** Rotations *)

Lemma rotation_compose (px py ox oy a b : R) :
  mkVector2
    (cos b * (cos a * (px - ox) - sin a * (py - oy) + ox - ox)
     - sin b * (sin a * (px - ox) + cos a * (py - oy) + oy - oy) + ox)
    (sin b * (cos a * (px - ox) - sin a * (py - oy) + ox - ox)
     + cos b * (sin a * (px - ox) + cos a * (py - oy) + oy - oy) + oy)
  = mkVector2
      (cos (a + b) * (px - ox) - sin (a + b) * (py - oy) + ox)
      (sin (a + b) * (px - ox) + cos (a + b) * (py - oy) + oy).
Proof.
  rewrite sin_plus, cos_plus. f_equal; ring.
Qed.

Lemma sin_cos_square (a : R) : sin a * sin a + cos a * cos a = 1.
Proof.
  pose proof (sin2_cos2 a) as H. unfold Rsqr in H. exact H.
Qed.

Lemma rotation_isometry (dx dy a : R) :
  (cos a * dx - sin a * dy) * (cos a * dx - sin a * dy)
  + (sin a * dx + cos a * dy) * (sin a * dx + cos a * dy)
  = dx * dx + dy * dy.
Proof.
  transitivity ((sin a * sin a + cos a * cos a) * (dx * dx + dy * dy)); [ring |].
  rewrite sin_cos_square. ring.
Qed.

Lemma rotate_point_add (point : Point2) (a b : R) (origin : option Point2) :
  rotate_point (rotate_point point a origin) b origin = rotate_point point (a + b) origin.
Proof.
  unfold rotate_point. simpl. apply rotation_compose.
Qed.

Lemma rotate_vector_add (vector : Vector2) (a b : R) (origin : option Point2) :
  rotate_vector (rotate_vector vector a origin) b origin
  = rotate_vector vector (a + b) origin.
Proof.
  unfold rotate_vector. simpl. apply rotation_compose.
Qed.

Lemma rotate_point_zero (point : Point2) (origin : option Point2) :
  rotate_point point 0 origin = point.
Proof.
  destruct point as [px py]. unfold rotate_point. simpl.
  rewrite sin_0, cos_0. f_equal; ring.
Qed.

Lemma rotate_vector_zero (vector : Vector2) (origin : option Point2) :
  rotate_vector vector 0 origin = vector.
Proof.
  destruct vector as [vx vy]. unfold rotate_vector. simpl.
  rewrite sin_0, cos_0. f_equal; ring.
Qed.

Lemma rotate_point_distance (point : Point2) (angle : R) (origin : option Point2) :
  magnitude_squared (vsub (rotate_point point angle origin) (default_origin origin))
  = magnitude_squared (vsub point (default_origin origin)).
Proof.
  unfold rotate_point, magnitude_squared, vsub. simpl.
  rewrite <- (rotation_isometry (x point - x (default_origin origin))
                (y point - y (default_origin origin)) angle).
  ring.
Qed.

(** X1: turning a point, or a vector, by [a] and then by [b] about the
    same origin is turning it once by [a + b]. *)
Theorem rotations_compose (v : Vector2) (a b : R) (origin : option Point2) :
  rotate_point (rotate_point v a origin) b origin = rotate_point v (a + b) origin /\
  rotate_vector (rotate_vector v a origin) b origin = rotate_vector v (a + b) origin.
Proof.
  split; [apply rotate_point_add | apply rotate_vector_add].
Qed.

(** X2: turning back by the opposite angle undoes a rotation, for points
    and for vectors. *)
Theorem rotations_invert (v : Vector2) (angle : R) (origin : option Point2) :
  rotate_point (rotate_point v angle origin) (- angle) origin = v /\
  rotate_vector (rotate_vector v angle origin) (- angle) origin = v.
Proof.
  rewrite rotate_point_add, rotate_vector_add, Rplus_opp_r.
  split; [apply rotate_point_zero | apply rotate_vector_zero].
Qed.

(** X3: a rotation keeps the (squared) distance to its origin and leaves
    the origin itself in place. *)
Theorem rotations_keep_distance (point : Point2) (angle : R) (origin : option Point2) :
  magnitude_squared (vsub (rotate_point point angle origin) (default_origin origin))
  = magnitude_squared (vsub point (default_origin origin)) /\
  rotate_point (default_origin origin) angle origin = default_origin origin.
Proof.
  split; [apply rotate_point_distance |].
  destruct (default_origin origin) as [ox oy] eqn:E.
  unfold rotate_point. rewrite E. simpl. f_equal; ring.
Qed.

(** ** More on [smallest_difference] *)

Lemma float_mod_shift (a m : R) (k : Z) :
  m <> 0 -> float_mod (a + IZR k * m) m = float_mod a m.
Proof.
  intros Hm. unfold float_mod.
  replace ((a + IZR k * m) / m) with (a / m + IZR k) by (field; exact Hm).
  rewrite Zfloor_addz, plus_IZR. ring.
Qed.

Lemma float_mod_decompose (a m : R) :
  a = float_mod a m + IZR (Zfloor (a / m)) * m.
Proof.
  unfold float_mod. ring.
Qed.


(** X5: when the two values reduced modulo [m] lie within half a modulus
    of each other, the returned delta does lead from [a] to [b]:
    [(a + d) % m] equals [b % m]. *)
Theorem smallest_difference_direct (a b m d : R) :
  0 < m ->
  Rabs (float_mod a m - float_mod b m) <= m / 2 ->
  smallest_difference a b m = Ok d ->
  py_mod (a + d) m = py_mod b m.
Proof.
  intros Hm Hnear. unfold smallest_difference.
  rewrite !py_mod_ok by lra. simpl.
  destruct (Rle_dec (Rabs (float_mod a m - float_mod b m)) (m / 2)) as [_ | N];
    [| contradiction].
  intros H. injection H as <-. f_equal.
  rewrite (float_mod_decompose a m) at 1.
  replace (float_mod a m + IZR (Zfloor (a / m)) * m + (float_mod b m - float_mod a m))
    with (float_mod b m + IZR (Zfloor (a / m)) * m) by ring.
  rewrite float_mod_shift by lra.
  now apply float_mod_idempotent.
Qed.

Lemma smallest_difference_direct_witness :
  smallest_difference 1 (5 / 2) 10 = Ok (3 / 2) /\
  py_mod (1 + 3 / 2) 10 = py_mod (5 / 2) 10.
Proof.
  assert (E : smallest_difference 1 (5 / 2) 10 = Ok (3 / 2)).
  { unfold smallest_difference. rewrite !py_mod_ok by lra.
    rewrite !float_mod_small by lra. simpl.
    destruct (Rle_dec (Rabs (1 - 5 / 2)) (10 / 2)) as [_ | N].
    - f_equal. lra.
    - exfalso. apply N. rewrite Rabs_left by lra. lra. }
  split; [exact E |].
  apply (smallest_difference_direct 1 (5 / 2) 10 (3 / 2)); [lra | | exact E].
  rewrite !float_mod_small by lra. rewrite Rabs_left by lra. lra.
Defined.

(** X6: for a positive modulus, exchanging the two values negates the
    delta. *)
Theorem smallest_difference_antisymmetric (a b m d : R) :
  0 < m ->
  smallest_difference a b m = Ok d ->
  smallest_difference b a m = Ok (- d).
Proof.
  intros Hm. unfold smallest_difference.
  rewrite !py_mod_ok by lra. simpl.
  set (ma := float_mod a m). set (mb := float_mod b m).
  rewrite (Rabs_minus_sym mb ma).
  destruct (Rle_dec (Rabs (ma - mb)) (m / 2)) as [Hle | Hgt].
  - intros H. injection H as <-. f_equal. ring.
  - assert (Hne : ma <> mb).
    { intros E. apply Hgt. rewrite E, Rminus_diag, Rabs_R0. lra. }
    destruct (Rge_dec ma mb) as [Hge | Hlt]; intros H; injection H as <-.
    + destruct (Rge_dec mb ma) as [Hge' | _]; [lra |]. f_equal. ring.
    + destruct (Rge_dec mb ma) as [_ | Hlt']; [| lra]. f_equal. ring.
Qed.

Lemma smallest_difference_antisymmetric_witness :
  smallest_difference (5 / 2) 1 (13 / 5) = Ok (- (9 / 10)).
Proof.
  apply (smallest_difference_antisymmetric 1 (5 / 2) (13 / 5) (9 / 10)).
  - lra.
  - exact smallest_difference_example.
Defined.

(** X7: the result depends on the two values only through their residues:
    adding whole multiples of a non-zero modulus to either changes
    nothing. *)
Theorem smallest_difference_periodic (a b m : R) (j k : Z) :
  m <> 0 ->
  smallest_difference (a + IZR j * m) (b + IZR k * m) m = smallest_difference a b m.
Proof.
  intros Hm. unfold smallest_difference.
  rewrite !py_mod_ok by exact Hm.
  rewrite !float_mod_shift by exact Hm. reflexivity.
Qed.

Lemma smallest_difference_periodic_witness :
  smallest_difference (1 + IZR 2 * (13 / 5)) (5 / 2 + IZR (-1) * (13 / 5)) (13 / 5)
  = smallest_difference 1 (5 / 2) (13 / 5).
Proof.
  apply (smallest_difference_periodic 1 (5 / 2) (13 / 5) 2 (-1)). lra.
Defined.

(** ** More on poses *)

Lemma calculate_pose_change_returns (p : Pose.t) (m : Motion.t) (t : R) :
  succeeds (calculate_pose_change p m t).
Proof.
  destruct (Req_dec_T (Motion.rotation m) 0) as [Hz | Hnz].
  - rewrite calculate_pose_change_straight by exact Hz. eexists. reflexivity.
  - rewrite calculate_pose_change_arc by exact Hnz. eexists. reflexivity.
Qed.

Lemma arc_position_ignores_time_witness :
  exists q1 q2,
    calculate_pose_change (Pose.mk (mkVector2 3 4) 0) (Motion.mk (mkVector2 0 1) 1) 0 = Ok q1 /\
    calculate_pose_change (Pose.mk (mkVector2 3 4) 0) (Motion.mk (mkVector2 0 1) 1) 5 = Ok q2 /\
    Pose.position q1 = Pose.position q2.
Proof.
  destruct (calculate_pose_change_returns
              (Pose.mk (mkVector2 3 4) 0) (Motion.mk (mkVector2 0 1) 1) 0) as (q1 & H1).
  destruct (calculate_pose_change_returns
              (Pose.mk (mkVector2 3 4) 0) (Motion.mk (mkVector2 0 1) 1) 5) as (q2 & H2).
  exists q1, q2. split; [exact H1 |]. split; [exact H2 |].
  apply (arc_position_ignores_time
           (Pose.mk (mkVector2 3 4) 0) (Motion.mk (mkVector2 0 1) 1) 0 5 q1 q2);
    [simpl; lra | exact H1 | exact H2].
Defined.

(** The point about which the arc branch turns the position:
    [centre_of_rotation] of the source. *)
Lemma arc_centre_of_rotation (p : Pose.t) (m : Motion.t) (t : R) (q : Pose.t) :
  Motion.rotation m <> 0 ->
  calculate_pose_change p m t = Ok q ->
  Pose.position q =
  rotate_point (Pose.position p) (Motion.rotation m)
    (Some (mkVector2
             (x (cross (rotate_vector (Motion.translation m)
                          (- Pose.orientation p) None)) / Motion.rotation m)
             (y (cross (rotate_vector (Motion.translation m)
                          (- Pose.orientation p) None)) / Motion.rotation m))).
Proof.
  intros Hr. rewrite calculate_pose_change_arc by exact Hr.
  intros H. injection H as <-. reflexivity.
Qed.

(** X10: in the arc branch the new position is as far from the centre of
    rotation, [cross(rotate_vector(translation, -orientation)) /
    rotation] taken as a point, as the old one. *)
Theorem arc_keeps_distance_to_centre (p : Pose.t) (m : Motion.t) (t : R) (q : Pose.t)
    (c : Vector2) :
  Motion.rotation m <> 0 ->
  vdiv (cross (rotate_vector (Motion.translation m) (- Pose.orientation p) None))
       (Motion.rotation m) = Ok c ->
  calculate_pose_change p m t = Ok q ->
  magnitude_squared (vsub (Pose.position q) c)
  = magnitude_squared (vsub (Pose.position p) c).
Proof.
  intros Hr Hc Hq.
  rewrite vdiv_ok in Hc by exact Hr. injection Hc as <-.
  rewrite (arc_centre_of_rotation p m t q Hr Hq).
  match goal with
  | |- context [rotate_point ?pt ?a (Some ?o)] =>
      exact (rotate_point_distance pt a (Some o))
  end.
Qed.

Lemma arc_keeps_distance_to_centre_witness :
  exists q,
    calculate_pose_change (Pose.mk (mkVector2 3 4) 0) (Motion.mk (mkVector2 0 2) 1) 5 = Ok q /\
    magnitude_squared
      (vsub (Pose.position q)
            (mkVector2 (x (cross (rotate_vector (mkVector2 0 2) (- 0) None)) / 1)
                       (y (cross (rotate_vector (mkVector2 0 2) (- 0) None)) / 1)))
    = magnitude_squared
        (vsub (mkVector2 3 4)
              (mkVector2 (x (cross (rotate_vector (mkVector2 0 2) (- 0) None)) / 1)
                         (y (cross (rotate_vector (mkVector2 0 2) (- 0) None)) / 1))).
Proof.
  destruct (calculate_pose_change_returns
              (Pose.mk (mkVector2 3 4) 0) (Motion.mk (mkVector2 0 2) 1) 5) as (q & Hq).
  exists q. split; [exact Hq |].
  apply (arc_keeps_distance_to_centre
           (Pose.mk (mkVector2 3 4) 0) (Motion.mk (mkVector2 0 2) 1) 5 q);
    [simpl; lra | | exact Hq].
  apply vdiv_ok. simpl. lra.
Defined.

Lemma rotate_vector_linear (u v : Vector2) (angle : R) :
  rotate_vector (vadd u v) angle None
  = vadd (rotate_vector u angle None) (rotate_vector v angle None).
Proof.
  unfold rotate_vector, vadd. simpl. f_equal; ring.
Qed.

Lemma vadd_assoc (a b c : Vector2) : vadd (vadd a b) c = vadd a (vadd b c).
Proof.
  unfold vadd. simpl. f_equal; ring.
Qed.

(** X11: from a pose built by the constructor, two straight-line steps
    (rotation rate 0) with translations [t1] then [t2] end where a single
    step with the translation [t1 + t2] ends, whatever the time
    arguments. *)
Theorem straight_steps_add (position : Point2) (orientation : R) (p : Pose.t)
    (t1 t2 : Vector2) (time1 time2 time3 : R) :
  Pose.init position orientation = Ok p ->
  exists q,
    calculate_pose_change p (Motion.mk t1 0) time1 = Ok q /\
    calculate_pose_change q (Motion.mk t2 0) time2
    = calculate_pose_change p (Motion.mk (vadd t1 t2) 0) time3.
Proof.
  rewrite Pose_init_ok. intros H. injection H as <-.
  rewrite !calculate_pose_change_straight by reflexivity.
  eexists. split; [reflexivity |].
  rewrite calculate_pose_change_straight by reflexivity. simpl.
  rewrite !float_mod_idempotent by apply two_PI_pos.
  rewrite rotate_vector_linear, vadd_assoc. reflexivity.
Qed.

Lemma straight_steps_add_witness :
  exists q,
    calculate_pose_change (Pose.mk (mkVector2 3 4) 1) (Motion.mk (mkVector2 1 0) 0) 1 = Ok q /\
    calculate_pose_change q (Motion.mk (mkVector2 0 2) 0) 2
    = calculate_pose_change (Pose.mk (mkVector2 3 4) 1)
        (Motion.mk (vadd (mkVector2 1 0) (mkVector2 0 2)) 0) 3.
Proof.
  apply (straight_steps_add (mkVector2 3 4) 1 (Pose.mk (mkVector2 3 4) 1)).
  rewrite Pose_init_ok.
  rewrite float_mod_small by (generalize PI_gt_3; lra). reflexivity.
Defined.

(** X12: the vector returned by [pose_to_pose_vector] is as long as the
    straight line between the two positions, and is the zero vector from
    a pose to itself. *)
Theorem pose_to_pose_vector_length (self to_pose : Pose.t) :
  magnitude_squared (pose_to_pose_vector self to_pose)
  = magnitude_squared (vsub (Pose.position to_pose) (Pose.position self)) /\
  pose_to_pose_vector self self = mkVector2 0 0.
Proof.
  split.
  - unfold pose_to_pose_vector, rotate_vector, magnitude_squared, vsub. simpl.
    rewrite <- (rotation_isometry
                  (x (Pose.position to_pose) - x (Pose.position self))
                  (y (Pose.position to_pose) - y (Pose.position self))
                  (- Pose.orientation self)).
    ring.
  - unfold pose_to_pose_vector, rotate_vector. simpl. f_equal; ring.
Qed.

(** X13: after a straight-line step (rotation rate 0) from [p],
    [pose_to_pose_vector] from [p] to the new pose is the step's
    translation turned by minus twice the orientation of [p]: it is the
    translation itself when that orientation is 0. *)
Theorem pose_to_pose_vector_after_straight_step (p : Pose.t) (m : Motion.t) (t : R)
    (q : Pose.t) :
  Motion.rotation m = 0 ->
  calculate_pose_change p m t = Ok q ->
  pose_to_pose_vector p q
  = rotate_vector (Motion.translation m) (- Pose.orientation p + - Pose.orientation p) None /\
  (Pose.orientation p = 0 -> pose_to_pose_vector p q = Motion.translation m).
Proof.
  intros Hr. rewrite calculate_pose_change_straight by exact Hr.
  intros H. injection H as <-.
  assert (E : pose_to_pose_vector p
                (Pose.mk (vadd (Pose.position p)
                            (rotate_vector (Motion.translation m) (- Pose.orientation p) None))
                         (float_mod (Pose.orientation p) (2 * PI)))
              = rotate_vector (Motion.translation m)
                  (- Pose.orientation p + - Pose.orientation p) None).
  { rewrite <- rotate_vector_add. unfold pose_to_pose_vector. f_equal.
    destruct (rotate_vector (Motion.translation m) (- Pose.orientation p) None)
      as [rx ry].
    unfold vadd. simpl. f_equal; ring. }
  split; [exact E |].
  intros Ho. rewrite E, Ho, Ropp_0, Rplus_0_r. apply rotate_vector_zero.
Qed.

Lemma pose_to_pose_vector_after_straight_step_witness :
  exists q,
    calculate_pose_change (Pose.mk (mkVector2 3 4) 0) (Motion.mk (mkVector2 0 100) 0) 1 = Ok q /\
    pose_to_pose_vector (Pose.mk (mkVector2 3 4) 0) q
    = rotate_vector (mkVector2 0 100) (- 0 + - 0) None /\
    (0 = 0 -> pose_to_pose_vector (Pose.mk (mkVector2 3 4) 0) q = mkVector2 0 100).
Proof.
  destruct (calculate_pose_change_returns
              (Pose.mk (mkVector2 3 4) 0) (Motion.mk (mkVector2 0 100) 0) 1) as (q & Hq).
  exists q. split; [exact Hq |].
  apply (pose_to_pose_vector_after_straight_step
           (Pose.mk (mkVector2 3 4) 0) (Motion.mk (mkVector2 0 100) 0) 1 q);
    [reflexivity | exact Hq].
Defined.

(** ** More on wheels *)

(** X14: a constructed wheel turns at [k] revolutions per second when its
    contact point moves at [k] times the drive vector, and any velocity
    across the drive vector adds nothing. *)
Theorem speed_projects_on_drive_vector (w : OmniWheel.t) (k j : R) :
  constructed w ->
  OmniWheel.speed w
    (vadd (vscale (OmniWheel.vector w) k) (vscale (cross (OmniWheel.vector w)) j))
  = Ok k.
Proof.
  intros (position & max_speed & angle & radius & vector & H).
  apply init_inv in H as (v & _ & Hnz & ->).
  unfold OmniWheel.speed. simpl. rewrite py_div_ok by exact Hnz.
  f_equal. unfold magnitude_squared in *.
  unfold dot, vadd, vscale, cross. simpl. field. exact Hnz.
Qed.

Lemma speed_projects_on_drive_vector_witness :
  exists w,
    unit_wheel None = Ok w /\
    OmniWheel.speed w
      (vadd (vscale (OmniWheel.vector w) 3) (vscale (cross (OmniWheel.vector w)) 7))
    = Ok 3.
Proof.
  assert (N01 : magnitude_squared (mkVector2 0 1) <> 0)
    by (unfold magnitude_squared; simpl; lra).
  pose proof (vector_wheel_ok (mkVector2 0 0) None _ N01) as E.
  eexists. split; [exact E |].
  apply speed_projects_on_drive_vector. repeat eexists. exact E.
Defined.

Lemma angle_radius_constructed (position : Point2) (max_speed : option R)
    (angle radius : R) :
  radius <> 0 ->
  succeeds (OmniWheel.init position max_speed (Some angle) (Some radius) None).
Proof.
  intros Hr.
  set (c := 2 * PI * radius).
  set (v := mkVector2 (sin angle * c) (cos angle * c)).
  assert (Hc : c <> 0).
  { unfold c. generalize PI_RGT_0. intros HPI H.
    apply Rmult_integral in H as [H | H]; [lra | contradiction]. }
  assert (Hnz : magnitude_squared v <> 0).
  { unfold magnitude_squared, v. simpl.
    replace (sin angle * c * (sin angle * c) + cos angle * c * (cos angle * c))
      with ((sin angle * sin angle + cos angle * cos angle) * (c * c)) by ring.
    rewrite sin_cos_square, Rmult_1_l.
    intros H. apply Rmult_integral in H. tauto. }
  eexists.
  apply (init_ok position max_speed (Some angle) (Some radius) None v eq_refl Hnz).
Qed.

(** X15: a wheel given by an angle and a radius is built exactly when
    the radius is not zero (a zero radius raises [ZeroDivisionError]);
    its contact point moving at [u] mm/s along the direction [(sin angle,
    cos angle)] turns it at [u / (2 * pi * radius)] revolutions per
    second. *)
Theorem angle_radius_wheel (position : Point2) (max_speed : option R)
    (angle radius u : R) :
  (radius = 0 ->
   OmniWheel.init position max_speed (Some angle) (Some radius) None
   = Raise ZeroDivisionError) /\
  (radius <> 0 ->
   exists w,
     OmniWheel.init position max_speed (Some angle) (Some radius) None = Ok w /\
     OmniWheel.speed w (mkVector2 (u * sin angle) (u * cos angle))
     = Ok (u / (2 * PI * radius))).
Proof.
  set (c := 2 * PI * radius).
  set (v := mkVector2 (sin angle * c) (cos angle * c)).
  assert (Hv : OmniWheel.drive_vector (Some angle) (Some radius) None = Ok v)
    by reflexivity.
  assert (Hms : magnitude_squared v = c * c).
  { unfold magnitude_squared, v. simpl.
    transitivity ((sin angle * sin angle + cos angle * cos angle) * (c * c)); [ring |].
    rewrite sin_cos_square. ring. }
  split.
  - intros Hr. apply init_zero_vector with (v := v); [exact Hv |].
    rewrite Hms. unfold c. rewrite Hr. ring.
  - intros Hr.
    assert (Hc : c <> 0).
    { unfold c. generalize PI_RGT_0. intros HPI H.
      apply Rmult_integral in H as [H | H]; [lra | contradiction]. }
    assert (Hnz : magnitude_squared v <> 0).
    { rewrite Hms. intros H. apply Rmult_integral in H. tauto. }
    eexists. split; [apply (init_ok _ _ _ _ _ v Hv Hnz) |].
    unfold OmniWheel.speed. simpl. rewrite py_div_ok by exact Hnz.
    f_equal. rewrite Hms. unfold dot, v. simpl.
    transitivity (u * c * (sin angle * sin angle + cos angle * cos angle) / (c * c)).
    + field. exact Hc.
    + rewrite sin_cos_square. field. exact Hc.
Qed.

Lemma angle_radius_wheel_witness :
  exists w,
    OmniWheel.init (mkVector2 1 0) None (Some 0) (Some 60) None = Ok w /\
    OmniWheel.speed w (mkVector2 (5 * sin 0) (5 * cos 0)) = Ok (5 / (2 * PI * 60)).
Proof.
  apply (proj2 (angle_radius_wheel (mkVector2 1 0) None 0 60 5)). lra.
Defined.

(** ** More on the inverse kinematics *)

Lemma traverse_nth {A B : Type} (f : A -> result B) (xs : list A) (ys : list B) :
  traverse f xs = Ok ys ->
  forall i a, nth_error xs i = Some a ->
  exists b, nth_error ys i = Some b /\ f a = Ok b.
Proof.
  revert ys. induction xs as [| a0 xs IH]; intros ys H i a Hi.
  - destruct i; discriminate.
  - simpl in H. destruct (f a0) as [b0 |] eqn:Hb0; [| discriminate]. simpl in H.
    destruct (traverse f xs) as [ys0 |] eqn:Hys; [| discriminate]. simpl in H.
    injection H as <-. destruct i as [| i]; simpl in *.
    + injection Hi as <-. exists b0. split; [reflexivity | exact Hb0].
    + now apply (IH ys0 eq_refl i a).
Qed.

Lemma traverse_length {A B : Type} (f : A -> result B) (xs : list A) (ys : list B) :
  traverse f xs = Ok ys -> length ys = length xs.
Proof.
  revert ys. induction xs as [| a0 xs IH]; intros ys H; simpl in H.
  - injection H as <-. reflexivity.
  - destruct (f a0) as [b0 |]; [| discriminate]. simpl in H.
    destruct (traverse f xs) as [ys0 |]; [| discriminate]. simpl in H.
    injection H as <-. simpl. now rewrite (IH ys0 eq_refl).
Qed.

Lemma traverse_map {A B : Type} (f g : A -> result B) (h : B -> B) (xs : list A)
    (ys : list B) :
  (forall a b, f a = Ok b -> g a = Ok (h b)) ->
  traverse f xs = Ok ys -> traverse g xs = Ok (map h ys).
Proof.
  intros Hfg. revert ys. induction xs as [| a0 xs IH]; intros ys H; simpl in *.
  - injection H as <-. reflexivity.
  - destruct (f a0) as [b0 |] eqn:Hb0; [| discriminate]. simpl in H.
    destruct (traverse f xs) as [ys0 |]; [| discriminate]. simpl in H.
    injection H as <-. rewrite (Hfg a0 b0 Hb0). simpl.
    rewrite (IH ys0 eq_refl). reflexivity.
Qed.

Lemma traverse_Forall {A B : Type} (f : A -> result B) (P : B -> Prop) (xs : list A)
    (ys : list B) :
  (forall a b, f a = Ok b -> P b) ->
  traverse f xs = Ok ys -> Forall P ys.
Proof.
  intros HP. revert ys. induction xs as [| a0 xs IH]; intros ys H; simpl in *.
  - injection H as <-. constructor.
  - destruct (f a0) as [b0 |] eqn:Hb0; [| discriminate]. simpl in H.
    destruct (traverse f xs) as [ys0 |]; [| discriminate]. simpl in H.
    injection H as <-. constructor; [now apply (HP a0) | now apply IH].
Qed.

Lemma Forall_combine {A B : Type} (P : A -> Prop) (Q : B -> Prop) (l1 : list A)
    (l2 : list B) :
  Forall P l1 -> Forall Q l2 ->
  Forall (fun p => P (fst p) /\ Q (snd p)) (combine l1 l2).
Proof.
  intros H1. revert l2.
  induction H1 as [| a l1 Ha _ IH]; intros l2 H2; [constructor |].
  destruct H2 as [| b l2 Hb H2]; simpl; constructor; auto.
Qed.

(** When no wheel is asked for more than its limit the loop leaves
    [scale] alone. *)
Lemma scale_loop_feasible (scale : R) (pairs : list (R * OmniWheel.t)) :
  Forall feasible pairs -> scale_loop scale pairs = Ok scale.
Proof.
  induction 1 as [| [speed wheel] rest Hf _ IH]; simpl; [reflexivity |].
  unfold feasible in Hf. simpl in Hf.
  destruct (OmniWheel.max_speed wheel) as [limit |]; [| exact IH].
  destruct (Rgt_dec (Rabs speed) limit) as [Hgt | _]; [lra | exact IH].
Qed.

Lemma get_wheel_speeds_raise (ch : HoloChassis.t) (translation : Vector2) (rotation : R)
    (origin : option Point2) (unscaled : list R) (e : exn) :
  wheel_speeds ch translation rotation (default_origin origin) = Ok unscaled ->
  scale_loop 1 (combine unscaled (HoloChassis.wheels ch)) = Raise e ->
  get_wheel_speeds ch translation rotation origin = Raise e.
Proof.
  intros Hu Hs. unfold get_wheel_speeds. cbv zeta. rewrite Hu. simpl.
  rewrite Hs. reflexivity.
Qed.

(** The speed of a wheel is homogeneous in the requested motion. *)
Lemma speed_scaled (w : OmniWheel.t) (translation : Vector2) (rotation k : R)
    (origin : Point2) (b : R) :
  OmniWheel.speed w (velocity_at translation rotation origin (OmniWheel.position w)) = Ok b ->
  OmniWheel.speed w
    (velocity_at (vscale translation k) (rotation * k) origin (OmniWheel.position w))
  = Ok (b * k).
Proof.
  unfold OmniWheel.speed. intros H.
  apply py_div_inv in H as [Hnz ->].
  rewrite py_div_ok by exact Hnz. f_equal.
  unfold dot, velocity_at, vadd, vscale, cross, vsub. simpl. field. exact Hnz.
Qed.

Lemma wheel_speeds_scaled (ch : HoloChassis.t) (translation : Vector2) (rotation k : R)
    (origin : Point2) (unscaled : list R) :
  wheel_speeds ch translation rotation origin = Ok unscaled ->
  wheel_speeds ch (vscale translation k) (rotation * k) origin
  = Ok (map (fun speed => speed * k) unscaled).
Proof.
  unfold wheel_speeds. apply traverse_map.
  intros w b. apply speed_scaled.
Qed.

(** With a zero request every computed speed is zero. *)
Lemma wheel_speeds_at_rest (ch : HoloChassis.t) (origin : Point2) (unscaled : list R) :
  wheel_speeds ch (mkVector2 0 0) 0 origin = Ok unscaled ->
  Forall (fun speed => speed = 0) unscaled.
Proof.
  unfold wheel_speeds. apply traverse_Forall.
  intros w b. unfold OmniWheel.speed. intros H.
  apply py_div_inv in H as [Hnz ->].
  unfold dot, velocity_at, vadd, vscale, cross, vsub. simpl. field. exact Hnz.
Qed.

(** X16: a call that returns gives one speed per wheel, each the
    computed speed of that wheel times the returned scaling. *)
Theorem one_speed_per_wheel (ch : HoloChassis.t) (translation : Vector2) (rotation : R)
    (origin : option Point2) (ws : WheelSpeeds.t) :
  get_wheel_speeds ch translation rotation origin = Ok ws ->
  length (WheelSpeeds.speeds ws) = length (HoloChassis.wheels ch) /\
  forall i w, nth_error (HoloChassis.wheels ch) i = Some w ->
    exists speed,
      OmniWheel.speed w
        (velocity_at translation rotation (default_origin origin) (OmniWheel.position w))
      = Ok speed /\
      nth_error (WheelSpeeds.speeds ws) i = Some (speed * WheelSpeeds.scaling ws).
Proof.
  intros H. apply get_wheel_speeds_inv in H as (unscaled & scale & Hu & _ & ->). simpl.
  split.
  - rewrite length_map. exact (traverse_length _ _ _ Hu).
  - intros i w Hi.
    destruct (traverse_nth _ _ _ Hu i w Hi) as (b & Hb & Hsp).
    exists b. split; [exact Hsp |].
    now apply (map_nth_error (fun speed => speed * scale)).
Qed.

Lemma one_speed_per_wheel_witness :
  exists w ws,
    unit_wheel (Some 1) = Ok w /\
    get_wheel_speeds (HoloChassis.init [w]) (mkVector2 0 2) 0 None = Ok ws /\
    length (WheelSpeeds.speeds ws) = length (HoloChassis.wheels (HoloChassis.init [w])).
Proof.
  destruct (unit_wheel_run 1 2) as (w & Hw & _ & _ & _ & Hws); [lra | lra |].
  exists w. eexists. split; [exact Hw |]. split; [exact Hws |].
  apply (one_speed_per_wheel (HoloChassis.init [w]) (mkVector2 0 2) 0 None _ Hws).
Defined.

(** X17: asked for no motion at all, a chassis of constructed wheels
    whose limits, where set, are zero or more returns the speed 0 for
    every wheel and the scaling 1. *)
Theorem rest_is_feasible (ch : HoloChassis.t) (origin : option Point2) :
  Forall constructed (HoloChassis.wheels ch) ->
  Forall nonnegative_limit (HoloChassis.wheels ch) ->
  exists ws,
    get_wheel_speeds ch (mkVector2 0 0) 0 origin = Ok ws /\
    WheelSpeeds.scaling ws = 1 /\
    length (WheelSpeeds.speeds ws) = length (HoloChassis.wheels ch) /\
    Forall (fun speed => speed = 0) (WheelSpeeds.speeds ws).
Proof.
  intros Hc Hl.
  destruct (wheel_speeds_total ch (mkVector2 0 0) 0 (default_origin origin) Hc)
    as (unscaled & Hu & Hlen).
  pose proof (wheel_speeds_at_rest _ _ _ Hu) as Hzero.
  assert (Hs : scale_loop 1 (combine unscaled (HoloChassis.wheels ch)) = Ok 1).
  { apply scale_loop_feasible.
    eapply Forall_impl; [| exact (Forall_combine _ _ _ _ Hzero Hl)].
    intros [speed wheel] [Hsp Hw]. simpl in Hsp, Hw. unfold feasible. simpl.
    unfold nonnegative_limit in Hw.
    destruct (OmniWheel.max_speed wheel) as [limit |]; [| exact I].
    rewrite Hsp, Rabs_R0. exact Hw. }
  eexists. split; [exact (get_wheel_speeds_ok _ _ _ _ _ _ Hu Hs) |]. simpl.
  split; [reflexivity |]. split; [now rewrite length_map |].
  rewrite Forall_map. eapply Forall_impl; [| exact Hzero].
  intros speed ->. ring.
Qed.

Lemma rest_is_feasible_witness :
  exists w ws,
    unit_wheel (Some 0) = Ok w /\
    get_wheel_speeds (HoloChassis.init [w]) (mkVector2 0 0) 0 None = Ok ws /\
    WheelSpeeds.scaling ws = 1 /\
    length (WheelSpeeds.speeds ws) = length (HoloChassis.wheels (HoloChassis.init [w])) /\
    Forall (fun speed => speed = 0) (WheelSpeeds.speeds ws).
Proof.
  destruct (unit_wheel_run 0 1) as (w & Hw & Hmax & Hwheels & _); [lra | lra |].
  exists w.
  destruct (rest_is_feasible (HoloChassis.init [w]) None) as (ws & H).
  - rewrite Hwheels. constructor; [| constructor].
    unfold unit_wheel in Hw. repeat eexists. exact Hw.
  - rewrite Hwheels. constructor; [| constructor].
    unfold nonnegative_limit. rewrite Hmax. lra.
  - exists ws. split; [exact Hw | exact H].
Defined.

Lemma scale_loop_negative_limit_at_rest (wheels : list OmniWheel.t) :
  Exists negative_limit wheels ->
  forall (unscaled : list R) (scale : R),
    length unscaled = length wheels ->
    Forall (fun speed => speed = 0) unscaled ->
    scale_loop scale (combine unscaled wheels) = Raise ZeroDivisionError.
Proof.
  induction wheels as [| w wheels IH]; intros Hex unscaled scale Hlen Hzero.
  - inversion Hex.
  - destruct unscaled as [| speed unscaled]; [discriminate |].
    simpl in Hlen. injection Hlen as Hlen.
    inversion Hzero as [| ? ? Hsp Hrest]; subst. simpl.
    unfold negative_limit in *.
    destruct (OmniWheel.max_speed w) as [limit |] eqn:Hmax.
    + rewrite Rabs_R0.
      destruct (Rgt_dec 0 limit) as [Hneg | Hpos].
      * rewrite py_div_zero. reflexivity.
      * apply IH; auto.
        inversion Hex as [? ? Hw | ? ? Htl]; subst; [| exact Htl].
        rewrite Hmax in Hw. lra.
    + apply IH; auto.
      inversion Hex as [? ? Hw | ? ? Htl]; subst; [| exact Htl].
      rewrite Hmax in Hw. contradiction.
Qed.

(** X18: asked for no motion at all, a chassis of constructed wheels one
    of which has a negative limit raises [ZeroDivisionError]: the zero
    speed exceeds the limit and the limit is divided by it. *)
Theorem rest_with_negative_limit_raises (ch : HoloChassis.t) (origin : option Point2) :
  Forall constructed (HoloChassis.wheels ch) ->
  Exists negative_limit (HoloChassis.wheels ch) ->
  get_wheel_speeds ch (mkVector2 0 0) 0 origin = Raise ZeroDivisionError.
Proof.
  intros Hc Hex.
  destruct (wheel_speeds_total ch (mkVector2 0 0) 0 (default_origin origin) Hc)
    as (unscaled & Hu & Hlen).
  apply (get_wheel_speeds_raise _ _ _ _ unscaled); [exact Hu |].
  apply scale_loop_negative_limit_at_rest; auto.
  exact (wheel_speeds_at_rest _ _ _ Hu).
Qed.

Lemma rest_with_negative_limit_raises_witness :
  exists w,
    unit_wheel (Some (-1)) = Ok w /\
    get_wheel_speeds (HoloChassis.init [w]) (mkVector2 0 0) 0 None
    = Raise ZeroDivisionError.
Proof.
  destruct (unit_wheel_run (-1) 2) as (w & Hw & Hmax & Hwheels & _); [lra | lra |].
  exists w. split; [exact Hw |].
  apply (rest_with_negative_limit_raises (HoloChassis.init [w]) None).
  - rewrite Hwheels. constructor; [| constructor].
    unfold unit_wheel in Hw. repeat eexists. exact Hw.
  - rewrite Hwheels. constructor.
    unfold negative_limit. rewrite Hmax. lra.
Defined.

(** X19: a pure rotation about the contact point of a wheel asks nothing
    of that wheel: its computed speed in [wheel_speeds] is 0, whatever
    the rate. *)
Theorem rotation_about_contact_point (ch : HoloChassis.t) (rotation : R) (i : nat)
    (w : OmniWheel.t) (unscaled : list R) :
  nth_error (HoloChassis.wheels ch) i = Some w ->
  wheel_speeds ch (mkVector2 0 0) rotation (OmniWheel.position w) = Ok unscaled ->
  nth_error unscaled i = Some 0.
Proof.
  intros Hi Hu. unfold wheel_speeds in Hu.
  destruct (traverse_nth _ _ _ Hu i w Hi) as (b & Hb & Hsp).
  rewrite Hb. f_equal.
  unfold OmniWheel.speed in Hsp. apply py_div_inv in Hsp as [Hnz ->].
  unfold dot, velocity_at, vadd, vscale, cross, vsub. simpl. field. exact Hnz.
Qed.

Lemma rotation_about_contact_point_witness :
  exists a b unscaled,
    test_wheel_a = Ok a /\ test_wheel_b = Ok b /\
    wheel_speeds (HoloChassis.init [a; b]) (mkVector2 0 0) (1 / 2) (OmniWheel.position a)
      = Ok unscaled /\
    nth_error unscaled 0 = Some 0.
Proof.
  destruct (angle_radius_constructed (mkVector2 1 0) OmniWheel.default_max_speed 0 60)
    as (a & Ha); [lra |].
  destruct (angle_radius_constructed (mkVector2 (-1) 0) OmniWheel.default_max_speed 0 60)
    as (b & Hb); [lra |].
  destruct (wheel_speeds_total (HoloChassis.init [a; b]) (mkVector2 0 0) (1 / 2)
              (OmniWheel.position a)) as (unscaled & Hu & _).
  { simpl. constructor; [| constructor; [| constructor]]; repeat eexists; eassumption. }
  exists a, b, unscaled.
  split; [exact Ha |]. split; [exact Hb |]. split; [exact Hu |].
  apply (rotation_about_contact_point (HoloChassis.init [a; b]) (1 / 2) 0 a unscaled);
    [reflexivity | exact Hu].
Defined.

Lemma scale_loop_sign (unscaled : list R) (wheels : list OmniWheel.t) (scale : R) :
  scale_loop scale (combine (map (fun speed => speed * -1) unscaled) wheels)
  = scale_loop scale (combine unscaled wheels).
Proof.
  revert wheels scale.
  induction unscaled as [| speed unscaled IH]; intros [| w wheels] scale; simpl;
    try reflexivity.
  replace (Rabs (speed * -1)) with (Rabs speed)
    by (replace (speed * -1) with (- speed) by ring; now rewrite Rabs_Ropp).
  destruct (OmniWheel.max_speed w) as [limit |]; [| apply IH].
  destruct (Rgt_dec (Rabs speed) limit); [| apply IH].
  destruct (py_div limit (Rabs speed)) as [q | e]; simpl; [apply IH | reflexivity].
Qed.

(** X21: reversing a request (opposite translation, opposite rotation
    rate) reverses every returned speed and keeps the scaling. *)
Theorem reversed_request (ch : HoloChassis.t) (translation : Vector2) (rotation : R)
    (origin : option Point2) (ws : WheelSpeeds.t) :
  get_wheel_speeds ch translation rotation origin = Ok ws ->
  get_wheel_speeds ch (vscale translation (-1)) (- rotation) origin
  = Ok (WheelSpeeds.mk (map Ropp (WheelSpeeds.speeds ws)) (WheelSpeeds.scaling ws)).
Proof.
  intros Hws.
  apply get_wheel_speeds_inv in Hws as (unscaled & s & Hu & Hs & ->). simpl.
  pose proof (wheel_speeds_scaled _ _ _ (-1) _ _ Hu) as Hu'.
  replace (rotation * -1) with (- rotation) in Hu' by ring.
  rewrite <- (scale_loop_sign unscaled) in Hs.
  rewrite (get_wheel_speeds_ok _ _ _ _ _ _ Hu' Hs).
  f_equal. f_equal. rewrite !map_map. apply map_ext. intros speed. ring.
Qed.

Lemma reversed_request_witness :
  exists w,
    unit_wheel (Some 1) = Ok w /\
    get_wheel_speeds (HoloChassis.init [w]) (vscale (mkVector2 0 2) (-1)) (- 0) None
    = Ok (WheelSpeeds.mk (map Ropp [2 * (1 / 2)]) (1 / 2)).
Proof.
  destruct (unit_wheel_run 1 2) as (w & Hw & _ & _ & _ & Hws); [lra | lra |].
  exists w. split; [exact Hw |].
  apply (reversed_request (HoloChassis.init [w]) (mkVector2 0 2) 0 None
           (WheelSpeeds.mk [2 * (1 / 2)] (1 / 2)) Hws).
Defined.

(** ** Forward kinematics of computed speeds, and the speed probes *)

Lemma np_solve_solves (a11 a12 a13 a21 a22 a23 a31 a32 a33 b1 b2 b3 : R) :
  det3 a11 a12 a13 a21 a22 a23 a31 a32 a33 <> 0 ->
  exists u v w,
    np_solve [[a11; a12; a13]; [a21; a22; a23]; [a31; a32; a33]] [b1; b2; b3]
    = Ok [u; v; w] /\
    a11 * u + a12 * v + a13 * w = b1 /\
    a21 * u + a22 * v + a23 * w = b2 /\
    a31 * u + a32 * v + a33 * w = b3.
Proof.
  intros Hd. unfold np_solve. cbv zeta.
  destruct (Req_dec_T (det3 a11 a12 a13 a21 a22 a23 a31 a32 a33) 0) as [E | _];
    [contradiction |].
  do 3 eexists. split; [reflexivity |].
  unfold Rdiv.
  remember (det3 a11 a12 a13 a21 a22 a23 a31 a32 a33) as d eqn:Ed.
  assert (Hinv : d * / d = 1) by (apply Rinv_r; exact Hd).
  remember (/ d) as i eqn:Ei. clear Ei.
  repeat split.
  - transitivity (b1 * (d * i)); [rewrite Ed; unfold det3; ring | rewrite Hinv; ring].
  - transitivity (b2 * (d * i)); [rewrite Ed; unfold det3; ring | rewrite Hinv; ring].
  - transitivity (b3 * (d * i)); [rewrite Ed; unfold det3; ring | rewrite Hinv; ring].
Qed.

(** X22: for three constructed wheels with a non-singular coefficient
    matrix, [calculate_motion] returns for any three speeds, and the
    motion it returns is one for which the wheels' computed speeds (at
    the default origin) are exactly the speeds given. *)
Theorem speeds_of_calculated_motion (w1 w2 w3 : OmniWheel.t) (b1 b2 b3 : R) :
  constructed w1 -> constructed w2 -> constructed w3 ->
  det (HoloChassis.matrix_coefficients (HoloChassis.init [w1; w2; w3])) <> 0 ->
  exists m,
    calculate_motion (HoloChassis.init [w1; w2; w3]) [b1; b2; b3] = Ok m /\
    wheel_speeds (HoloChassis.init [w1; w2; w3]) (Motion.translation m)
      (Motion.rotation m) (default_origin None)
    = Ok [b1; b2; b3].
Proof.
  intros H1 H2 H3 Hdet.
  unfold HoloChassis.init in *.
  cbn [HoloChassis.matrix_coefficients map det] in Hdet.
  destruct (np_solve_solves _ _ _ _ _ _ _ _ _ b1 b2 b3 Hdet)
    as (u & v & w & Hsolve & E1 & E2 & E3).
  unfold calculate_motion. cbn [HoloChassis.matrix_coefficients map].
  rewrite Hsolve. simpl.
  eexists. split; [reflexivity |].
  unfold wheel_speeds. simpl.
  rewrite !speed_is_linear by assumption. simpl.
  rewrite E1, E2, E3. reflexivity.
Qed.

Lemma speeds_of_calculated_motion_witness :
  exists w1 w2 w3 m,
    OmniWheel.init (mkVector2 0 0) None None None (Some (mkVector2 1 0)) = Ok w1 /\
    unit_wheel None = Ok w2 /\
    OmniWheel.init (mkVector2 0 1) None None None (Some (mkVector2 1 0)) = Ok w3 /\
    calculate_motion (HoloChassis.init [w1; w2; w3]) [1; 2; 4] = Ok m /\
    wheel_speeds (HoloChassis.init [w1; w2; w3]) (Motion.translation m)
      (Motion.rotation m) (default_origin None)
    = Ok [1; 2; 4].
Proof.
  assert (N10 : magnitude_squared (mkVector2 1 0) <> 0)
    by (unfold magnitude_squared; simpl; lra).
  assert (N01 : magnitude_squared (mkVector2 0 1) <> 0)
    by (unfold magnitude_squared; simpl; lra).
  pose proof (vector_wheel_ok (mkVector2 0 0) None _ N10) as E1.
  pose proof (vector_wheel_ok (mkVector2 0 0) None _ N01) as E2.
  pose proof (vector_wheel_ok (mkVector2 0 1) None _ N10) as E3.
  match type of E1 with _ = Ok ?w => set (w1 := w) in * end.
  match type of E2 with _ = Ok ?w => set (w2 := w) in * end.
  match type of E3 with _ = Ok ?w => set (w3 := w) in * end.
  assert (C1 : constructed w1) by (repeat eexists; exact E1).
  assert (C2 : constructed w2) by (repeat eexists; exact E2).
  assert (C3 : constructed w3) by (repeat eexists; exact E3).
  destruct (speeds_of_calculated_motion w1 w2 w3 1 2 4 C1 C2 C3) as (m & Hm & Hsp).
  - unfold det, det3. simpl. unfold magnitude_squared. simpl.
    match goal with |- ?e <> 0 => replace e with 1 by (field; lra) end. lra.
  - exists w1, w2, w3, m. auto.
Defined.

(** X23: a chassis of constructed wheels none of which has a limit
    reports its probes as its maxima: 10000 mm/s of translation and
    [2 * pi * 100] rad/s of rotation. *)
Theorem max_speeds_without_limits (ch : HoloChassis.t) :
  Forall constructed (HoloChassis.wheels ch) ->
  Forall (fun w => OmniWheel.max_speed w = None) (HoloChassis.wheels ch) ->
  get_max_translation_speed ch = Ok 10000 /\
  get_max_rotation_speed ch = Ok (2 * PI * 100).
Proof.
  intros Hc Hnone.
  assert (Hany : forall translation rotation,
             exists unscaled,
               get_wheel_speeds ch translation rotation None
               = Ok (WheelSpeeds.mk (map (fun speed => speed * 1) unscaled) 1)).
  { intros translation rotation.
    destruct (wheel_speeds_total ch translation rotation (default_origin None) Hc)
      as (unscaled & Hu & _).
    exists unscaled. apply get_wheel_speeds_ok; [exact Hu |].
    apply scale_loop_unlimited.
    now apply (Forall_combine_snd (fun w => OmniWheel.max_speed w = None)). }
  split.
  - unfold get_max_translation_speed. cbv zeta.
    destruct (Hany (mkVector2 0 10000) 0) as (unscaled & ->). simpl.
    f_equal. ring.
  - unfold get_max_rotation_speed. cbv zeta.
    destruct (Hany (mkVector2 0 0) (2 * PI * 100)) as (unscaled & ->). simpl.
    f_equal. ring.
Qed.

Lemma max_speeds_without_limits_witness :
  exists w,
    unit_wheel None = Ok w /\
    get_max_translation_speed (HoloChassis.init [w]) = Ok 10000 /\
    get_max_rotation_speed (HoloChassis.init [w]) = Ok (2 * PI * 100).
Proof.
  assert (N01 : magnitude_squared (mkVector2 0 1) <> 0)
    by (unfold magnitude_squared; simpl; lra).
  pose proof (vector_wheel_ok (mkVector2 0 0) None _ N01) as E.
  eexists. split; [exact E |].
  apply max_speeds_without_limits; simpl.
  - constructor; [| constructor]. repeat eexists. exact E.
  - constructor; [reflexivity | constructor].
Defined.

(** X24: with constructed wheels whose limits, where set, are positive,
    [get_max_translation_speed] returns [10000 * s], a speed in [(0,
    10000]], where [s] is the scaling of the probe: 1 when no wheel's
    probe speed exceeds its limit, otherwise the smallest quotient
    [maxSpeed / |speed|] among the wheels whose probe speed does. *)
Theorem max_translation_speed_by_quotient (ch : HoloChassis.t) :
  Forall constructed (HoloChassis.wheels ch) ->
  Forall positive_limit (HoloChassis.wheels ch) ->
  exists unscaled s,
    wheel_speeds ch (mkVector2 0 10000) 0 (default_origin None) = Ok unscaled /\
    get_max_translation_speed ch = Ok (10000 * s) /\
    0 < 10000 * s <= 10000 /\
    tightest_scaling (HoloChassis.wheels ch) unscaled s.
Proof.
  intros Hc Hp.
  destruct (wheel_speeds_total ch (mkVector2 0 10000) 0 (default_origin None) Hc)
    as (unscaled & Hu & _).
  destruct (scale_loop_tightest (HoloChassis.wheels ch) unscaled Hp)
    as (s & Hs & Htight).
  exists unscaled, s. split; [exact Hu |]. split.
  - unfold get_max_translation_speed. cbv zeta.
    rewrite (get_wheel_speeds_ok _ _ _ _ _ _ Hu Hs). reflexivity.
  - split; [| exact Htight]. destruct Htight as [[Hs0 Hs1] _]. lra.
Qed.

Lemma max_translation_speed_by_quotient_witness :
  exists w unscaled s,
    unit_wheel (Some 1) = Ok w /\
    wheel_speeds (HoloChassis.init [w]) (mkVector2 0 10000) 0 (default_origin None)
    = Ok unscaled /\
    get_max_translation_speed (HoloChassis.init [w]) = Ok (10000 * s) /\
    0 < 10000 * s <= 10000 /\
    tightest_scaling (HoloChassis.wheels (HoloChassis.init [w])) unscaled s.
Proof.
  destruct (unit_wheel_run 1 2) as (w & Hw & Hmax & Hwheels & _); [lra | lra |].
  exists w.
  destruct (max_translation_speed_by_quotient (HoloChassis.init [w])) as (u & s & H).
  - rewrite Hwheels. constructor; [| constructor].
    unfold unit_wheel in Hw. repeat eexists. exact Hw.
  - rewrite Hwheels. constructor; [| constructor].
    unfold positive_limit. rewrite Hmax. lra.
  - exists u, s. split; [exact Hw | exact H].
Defined.

(** X25: likewise [get_max_rotation_speed] returns [2 * pi * 100 * s], a
    rate in [(0, 2 * pi * 100]], where [s] is the scaling of the rotation
    probe about the default origin: 1 when no wheel's probe speed exceeds
    its limit, otherwise the smallest quotient [maxSpeed / |speed|] among
    the wheels whose probe speed does. *)
Theorem max_rotation_speed_by_quotient (ch : HoloChassis.t) :
  Forall constructed (HoloChassis.wheels ch) ->
  Forall positive_limit (HoloChassis.wheels ch) ->
  exists unscaled s,
    wheel_speeds ch (mkVector2 0 0) (2 * PI * 100) (default_origin None) = Ok unscaled /\
    get_max_rotation_speed ch = Ok (2 * PI * 100 * s) /\
    0 < 2 * PI * 100 * s <= 2 * PI * 100 /\
    tightest_scaling (HoloChassis.wheels ch) unscaled s.
Proof.
  intros Hc Hp.
  destruct (wheel_speeds_total ch (mkVector2 0 0) (2 * PI * 100) (default_origin None) Hc)
    as (unscaled & Hu & _).
  destruct (scale_loop_tightest (HoloChassis.wheels ch) unscaled Hp)
    as (s & Hs & Htight).
  exists unscaled, s. split; [exact Hu |]. split.
  - unfold get_max_rotation_speed. cbv zeta.
    rewrite (get_wheel_speeds_ok _ _ _ _ _ _ Hu Hs). reflexivity.
  - split; [| exact Htight]. destruct Htight as [[Hs0 Hs1] _].
    pose proof two_PI_pos as HPI. split.
    + apply Rmult_lt_0_compat; lra.
    + apply Rle_trans with (2 * PI * 100 * 1); [apply Rmult_le_compat_l; lra | lra].
Qed.

Lemma max_rotation_speed_by_quotient_witness :
  exists w unscaled s,
    unit_wheel (Some 1) = Ok w /\
    wheel_speeds (HoloChassis.init [w]) (mkVector2 0 0) (2 * PI * 100) (default_origin None)
    = Ok unscaled /\
    get_max_rotation_speed (HoloChassis.init [w]) = Ok (2 * PI * 100 * s) /\
    0 < 2 * PI * 100 * s <= 2 * PI * 100 /\
    tightest_scaling (HoloChassis.wheels (HoloChassis.init [w])) unscaled s.
Proof.
  destruct (unit_wheel_run 1 2) as (w & Hw & Hmax & Hwheels & _); [lra | lra |].
  exists w.
  destruct (max_rotation_speed_by_quotient (HoloChassis.init [w])) as (u & s & H).
  - rewrite Hwheels. constructor; [| constructor].
    unfold unit_wheel in Hw. repeat eexists. exact Hw.
  - rewrite Hwheels. constructor; [| constructor].
    unfold positive_limit. rewrite Hmax. lra.
  - exists u, s. split; [exact Hw | exact H].
Defined.

(** ** The regular triangular chassis *)

Lemma sqrt3_square : sqrt 3 * sqrt 3 = 3.
Proof. apply sqrt_sqrt. lra. Qed.

Lemma cos_radians_30 : cos (radians 30) = sqrt 3 / 2.
Proof.
  unfold radians. replace (30 * (PI / 180)) with (PI / 6) by field.
  exact cos_PI6.
Qed.

Lemma trig_minus_two_thirds :
  cos ((- PI) * 2 / 3) = - (1 / 2) /\ sin ((- PI) * 2 / 3) = - (sqrt 3 / 2).
Proof.
  replace ((- PI) * 2 / 3) with (- (2 * (PI / 3))) by field.
  rewrite cos_neg, sin_neg, cos_2PI3, sin_2PI3. split; lra.
Qed.

Lemma trig_minus_four_thirds :
  cos ((- PI) * 4 / 3) = - (1 / 2) /\ sin ((- PI) * 4 / 3) = sqrt 3 / 2.
Proof.
  replace ((- PI) * 4 / 3) with (- (PI / 3 + PI)) by field.
  rewrite cos_neg, sin_neg, neg_cos, neg_sin, cos_PI3, sin_PI3. split; lra.
Qed.

Lemma built_wheel_constructed (position : Point2) (max_speed : option R) (v : Vector2) :
  magnitude_squared v <> 0 -> constructed (built_wheel position max_speed v).
Proof.
  intros Hnz. exists position, max_speed, None, None, (Some v).
  now apply vector_wheel_ok.
Qed.

(** The three drive vectors of the triangle all have the squared
    magnitude [c * c]. *)
Lemma triangle_magnitudes (c : R) :
  magnitude_squared (mkVector2 (- c) 0) = c * c /\
  magnitude_squared (mkVector2 (c / 2) (sqrt 3 / 2 * c)) = c * c /\
  magnitude_squared (mkVector2 (c / 2) (- (sqrt 3 / 2 * c))) = c * c.
Proof.
  pose proof sqrt3_square as H3.
  unfold magnitude_squared. simpl.
  repeat split; [ring | |].
  - transitivity (c * c / 4 + sqrt 3 * sqrt 3 * (c * c) / 4); [field |].
    rewrite H3. field.
  - transitivity (c * c / 4 + sqrt 3 * sqrt 3 * (c * c) / 4); [field |].
    rewrite H3. field.
Qed.

(** What [get_regular_triangular_chassis] builds. *)
Lemma triangular_chassis_wheels (wheel_distance wheel_radius : R) (max_speed : option R) :
  wheel_radius <> 0 ->
  get_regular_triangular_chassis wheel_distance wheel_radius max_speed
  = Ok (HoloChassis.init
          (triangle_wheels (sqrt 3 * wheel_distance / 4) (2 * PI * wheel_radius) max_speed)).
Proof.
  intros Hr.
  set (h := sqrt 3 * wheel_distance / 4). set (c := 2 * PI * wheel_radius).
  assert (Hc : c * c <> 0).
  { assert (Hc0 : c <> 0).
    { unfold c. generalize PI_RGT_0. intros HPI H.
      apply Rmult_integral in H as [H | H]; [lra | contradiction]. }
    intros H. apply Rmult_integral in H. tauto. }
  destruct (triangle_magnitudes c) as (M1 & M2 & M3).
  destruct trig_minus_two_thirds as [C2 S2].
  destruct trig_minus_four_thirds as [C4 S4].
  unfold get_regular_triangular_chassis. cbv zeta.
  replace (mkVector2 0 (cos (radians 30) * wheel_distance / 2)) with (mkVector2 0 h)
    by (rewrite cos_radians_30; unfold h; f_equal; field).
  replace (mkVector2 (-2 * PI * wheel_radius) 0) with (mkVector2 (- c) 0)
    by (unfold c; f_equal; ring).
  replace (rotate_point (mkVector2 0 h) (- PI * 2 / 3) None)
    with (mkVector2 (sqrt 3 / 2 * h) (- h / 2))
    by (unfold rotate_point; simpl; rewrite C2, S2; f_equal; field).
  replace (rotate_vector (mkVector2 (- c) 0) (- PI * 2 / 3) None)
    with (mkVector2 (c / 2) (sqrt 3 / 2 * c))
    by (unfold rotate_vector; simpl; rewrite C2, S2; f_equal; field).
  replace (rotate_point (mkVector2 0 h) (- PI * 4 / 3) None)
    with (mkVector2 (- (sqrt 3 / 2 * h)) (- h / 2))
    by (unfold rotate_point; simpl; rewrite C4, S4; f_equal; field).
  replace (rotate_vector (mkVector2 (- c) 0) (- PI * 4 / 3) None)
    with (mkVector2 (c / 2) (- (sqrt 3 / 2 * c)))
    by (unfold rotate_vector; simpl; rewrite C4, S4; f_equal; field).
  rewrite !vector_wheel_ok by (rewrite ?M1, ?M2, ?M3; exact Hc).
  reflexivity.
Qed.

(** X26: the triangular chassis is built exactly when the wheel radius
    is not zero (a zero radius raises [ZeroDivisionError]); it then has
    three constructed wheels, each with the limit that was passed. *)
Theorem triangular_chassis_construction (wheel_distance wheel_radius : R)
    (max_speed : option R) :
  (wheel_radius = 0 ->
   get_regular_triangular_chassis wheel_distance wheel_radius max_speed
   = Raise ZeroDivisionError) /\
  (wheel_radius <> 0 ->
   exists a b c,
     get_regular_triangular_chassis wheel_distance wheel_radius max_speed
     = Ok (HoloChassis.init [a; b; c]) /\
     Forall constructed [a; b; c] /\
     Forall (fun w => OmniWheel.max_speed w = max_speed) [a; b; c]).
Proof.
  split.
  - intros ->. unfold get_regular_triangular_chassis. cbv zeta.
    rewrite (init_zero_vector
               (mkVector2 0 (cos (radians 30) * wheel_distance / 2)) max_speed
               None None (Some (mkVector2 (-2 * PI * 0) 0))
               (mkVector2 (-2 * PI * 0) 0) eq_refl);
      [reflexivity |].
    unfold magnitude_squared. simpl. ring.
  - intros Hr. rewrite (triangular_chassis_wheels _ _ _ Hr).
    set (c := 2 * PI * wheel_radius).
    assert (Hc : c * c <> 0).
    { assert (Hc0 : c <> 0).
      { unfold c. generalize PI_RGT_0. intros HPI H.
        apply Rmult_integral in H as [H | H]; [lra | contradiction]. }
      intros H. apply Rmult_integral in H. tauto. }
    destruct (triangle_magnitudes c) as (M1 & M2 & M3).
    unfold triangle_wheels. do 3 eexists. split; [reflexivity |]. split.
    + repeat constructor; apply built_wheel_constructed;
        rewrite ?M1, ?M2, ?M3; exact Hc.
    + repeat constructor.
Qed.

Lemma triangular_chassis_construction_witness :
  exists a b c,
    get_regular_triangular_chassis 200 30 (Some 1) = Ok (HoloChassis.init [a; b; c]) /\
    Forall constructed [a; b; c] /\
    Forall (fun w => OmniWheel.max_speed w = Some 1) [a; b; c].
Proof.
  apply (proj2 (triangular_chassis_construction 200 30 (Some 1))). lra.
Defined.

(** X27: the contact points of the triangular chassis are pairwise
    [3/4 * wheel_distance] apart (in squared form), not [wheel_distance]:
    the corner is placed at [cos(30 degrees) * wheel_distance / 2] from
    the centre. *)
Theorem triangular_chassis_spacing (wheel_distance wheel_radius : R)
    (max_speed : option R) (ch : HoloChassis.t) :
  wheel_radius <> 0 ->
  get_regular_triangular_chassis wheel_distance wheel_radius max_speed = Ok ch ->
  exists a b c,
    HoloChassis.wheels ch = [a; b; c] /\
    magnitude_squared (vsub (OmniWheel.position a) (OmniWheel.position b))
    = (3 / 4 * wheel_distance) * (3 / 4 * wheel_distance) /\
    magnitude_squared (vsub (OmniWheel.position b) (OmniWheel.position c))
    = (3 / 4 * wheel_distance) * (3 / 4 * wheel_distance) /\
    magnitude_squared (vsub (OmniWheel.position c) (OmniWheel.position a))
    = (3 / 4 * wheel_distance) * (3 / 4 * wheel_distance).
Proof.
  intros Hr. rewrite (triangular_chassis_wheels _ _ _ Hr).
  intros H. injection H as <-.
  unfold triangle_wheels. do 3 eexists. split; [reflexivity |].
  pose proof sqrt3_square as Hs.
  set (s := sqrt 3) in *. set (h := s * wheel_distance / 4).
  assert (Hh : h * h = 3 / 16 * (wheel_distance * wheel_distance)).
  { unfold h. transitivity (s * s * (wheel_distance * wheel_distance) / 16); [field |].
    rewrite Hs. field. }
  assert (Hsh : s * h * (s * h) = 9 / 16 * (wheel_distance * wheel_distance)).
  { transitivity (s * s * (h * h)); [ring |]. rewrite Hs, Hh. field. }
  clearbody h s.
  unfold magnitude_squared, vsub. simpl.
  repeat split; nra.
Qed.

Lemma triangular_chassis_spacing_witness :
  exists ch a b c,
    get_regular_triangular_chassis 200 30 None = Ok ch /\
    HoloChassis.wheels ch = [a; b; c] /\
    magnitude_squared (vsub (OmniWheel.position a) (OmniWheel.position b))
    = (3 / 4 * 200) * (3 / 4 * 200) /\
    magnitude_squared (vsub (OmniWheel.position b) (OmniWheel.position c))
    = (3 / 4 * 200) * (3 / 4 * 200) /\
    magnitude_squared (vsub (OmniWheel.position c) (OmniWheel.position a))
    = (3 / 4 * 200) * (3 / 4 * 200).
Proof.
  assert (Hr : (30 : R) <> 0) by lra.
  pose proof (triangular_chassis_wheels 200 30 None Hr) as Hch.
  eexists.
  destruct (triangular_chassis_spacing 200 30 None _ Hr Hch) as (a & b & c & H).
  exists a, b, c. split; [exact Hch | exact H].
Defined.

Lemma quotient_by_square (n f c : R) : c <> 0 -> n = f * c -> n / (c * c) = f / c.
Proof.
  intros Hc ->. field. exact Hc.
Qed.

(** X28: the inverse kinematics of the triangular chassis in closed
    form, at the default origin and before any scaling, with [h = sqrt 3
    * wheel_distance / 4] and [c = 2 * pi * wheel_radius]: a pure
    rotation asks the same speed [- h * rotation / c] of all three
    wheels, and the three speeds of a pure translation sum to zero. *)
Theorem triangular_chassis_speeds (wheel_distance wheel_radius : R)
    (max_speed : option R) (ch : HoloChassis.t) (translation : Vector2) (rotation : R) :
  wheel_radius <> 0 ->
  get_regular_triangular_chassis wheel_distance wheel_radius max_speed = Ok ch ->
  wheel_speeds ch translation rotation (default_origin None)
  = Ok [ (- x translation - sqrt 3 * wheel_distance / 4 * rotation)
         / (2 * PI * wheel_radius);
         (x translation / 2 + sqrt 3 / 2 * y translation
          - sqrt 3 * wheel_distance / 4 * rotation) / (2 * PI * wheel_radius);
         (x translation / 2 - sqrt 3 / 2 * y translation
          - sqrt 3 * wheel_distance / 4 * rotation) / (2 * PI * wheel_radius) ].
Proof.
  intros Hr. rewrite (triangular_chassis_wheels _ _ _ Hr).
  intros H. injection H as <-.
  set (c := 2 * PI * wheel_radius).
  assert (Hc0 : c <> 0).
  { unfold c. generalize PI_RGT_0. intros HPI H.
    apply Rmult_integral in H as [H | H]; [lra | contradiction]. }
  assert (Hc : c * c <> 0) by (intros H; apply Rmult_integral in H; tauto).
  destruct (triangle_magnitudes c) as (M1 & M2 & M3).
  pose proof sqrt3_square as Hs.
  destruct translation as [tx ty].
  unfold wheel_speeds, triangle_wheels, built_wheel, OmniWheel.speed.
  cbn [HoloChassis.init HoloChassis.wheels traverse OmniWheel.vector
       OmniWheel.vector_magnitude_squared OmniWheel.position].
  rewrite M1, M2, M3. rewrite !py_div_ok by exact Hc.
  cbn [bind]. do 2 f_equal; [| f_equal; [| f_equal]];
    apply quotient_by_square; try exact Hc0;
    unfold dot, velocity_at, vadd, vscale, cross, vsub; simpl;
    set (s := sqrt 3) in *; clearbody s.
  - field.
  - transitivity ((tx / 2 + s / 2 * ty
                   - (1 / 4 + s * s / 4) * (s * wheel_distance / 4) * rotation) * c);
      [field | rewrite Hs; field].
  - transitivity ((tx / 2 - s / 2 * ty
                   - (1 / 4 + s * s / 4) * (s * wheel_distance / 4) * rotation) * c);
      [field | rewrite Hs; field].
Qed.

Lemma triangular_chassis_speeds_witness :
  exists ch,
    get_regular_triangular_chassis 200 30 None = Ok ch /\
    wheel_speeds ch (mkVector2 0 0) 1 (default_origin None)
    = Ok [ (- x (mkVector2 0 0) - sqrt 3 * 200 / 4 * 1) / (2 * PI * 30);
           (x (mkVector2 0 0) / 2 + sqrt 3 / 2 * y (mkVector2 0 0)
            - sqrt 3 * 200 / 4 * 1) / (2 * PI * 30);
           (x (mkVector2 0 0) / 2 - sqrt 3 / 2 * y (mkVector2 0 0)
            - sqrt 3 * 200 / 4 * 1) / (2 * PI * 30) ].
Proof.
  assert (Hr : (30 : R) <> 0) by lra.
  pose proof (triangular_chassis_wheels 200 30 None Hr) as Hch.
  eexists. split; [exact Hch |].
  exact (triangular_chassis_speeds 200 30 None _ (mkVector2 0 0) 1 Hr Hch).
Defined.

(** X29: with a non-zero wheel distance (and radius) the coefficient
    matrix of the triangular chassis is non-singular, so
    [calculate_motion] returns a motion for any three wheel speeds. *)
Theorem triangular_chassis_is_invertible (wheel_distance wheel_radius : R)
    (max_speed : option R) (ch : HoloChassis.t) (b1 b2 b3 : R) :
  wheel_distance <> 0 -> wheel_radius <> 0 ->
  get_regular_triangular_chassis wheel_distance wheel_radius max_speed = Ok ch ->
  det (HoloChassis.matrix_coefficients ch) <> 0 /\
  succeeds (calculate_motion ch [b1; b2; b3]).
Proof.
  intros Hd Hr. rewrite (triangular_chassis_wheels _ _ _ Hr).
  intros H. injection H as <-.
  set (c := 2 * PI * wheel_radius).
  assert (Hc0 : c <> 0).
  { unfold c. generalize PI_RGT_0. intros HPI H.
    apply Rmult_integral in H as [H | H]; [lra | contradiction]. }
  destruct (triangle_magnitudes c) as (M1 & M2 & M3).
  pose proof sqrt3_square as Hs.
  assert (Hdet : det (HoloChassis.matrix_coefficients
                        (HoloChassis.init
                           (triangle_wheels (sqrt 3 * wheel_distance / 4) c max_speed)))
                 = 9 * wheel_distance / (8 * (c * c * c))).
  { unfold triangle_wheels, built_wheel, HoloChassis.init.
    cbn [HoloChassis.matrix_coefficients map det OmniWheel.co_x OmniWheel.co_y
         OmniWheel.co_theta].
    rewrite M1, M2, M3. unfold det3. simpl.
    set (s := sqrt 3) in *. clearbody s.
    transitivity (s * s * wheel_distance * (3 + s * s) / (16 * (c * c * c)));
      [field; exact Hc0 | rewrite Hs; field; exact Hc0]. }
  assert (Hnz : det (HoloChassis.matrix_coefficients
                       (HoloChassis.init
                          (triangle_wheels (sqrt 3 * wheel_distance / 4) c max_speed)))
                <> 0).
  { rewrite Hdet. apply Rdiv_nonzero.
    - intros H. apply Rmult_integral in H as [H | H]; [lra | contradiction].
    - intros H. apply Rmult_integral in H as [H | H]; [lra |].
      apply Rmult_integral in H as [H | H]; [| contradiction].
      apply Rmult_integral in H as [H | H]; contradiction. }
  split; [exact Hnz |].
  unfold triangle_wheels, HoloChassis.init in *.
  cbn [HoloChassis.matrix_coefficients map det] in Hnz.
  destruct (np_solve_solves _ _ _ _ _ _ _ _ _ b1 b2 b3 Hnz) as (u & v & w & Hsolve & _).
  unfold calculate_motion. cbn [HoloChassis.matrix_coefficients map].
  rewrite Hsolve. simpl. eexists. reflexivity.
Qed.

Lemma triangular_chassis_is_invertible_witness :
  exists ch,
    get_regular_triangular_chassis 200 30 None = Ok ch /\
    det (HoloChassis.matrix_coefficients ch) <> 0 /\
    succeeds (calculate_motion ch [1; 2; 3]).
Proof.
  assert (Hr : (30 : R) <> 0) by lra.
  assert (Hd : (200 : R) <> 0) by lra.
  pose proof (triangular_chassis_wheels 200 30 None Hr) as Hch.
  eexists. split; [exact Hch |].
  exact (triangular_chassis_is_invertible 200 30 None _ 1 2 3 Hd Hr Hch).
Defined.
